(** * CreateForm: the interview-request form of [src/components/CreateForm.tsx]

    A shallow embedding of the component's validation schema, of its
    skill-list editor and of its submit handler, followed by the properties
    the specification states about them.

    Conventions of the embedding.
    - A JavaScript string is the list of its UTF-16 code units.
    - The draft's [amount] is an integer ([Z]): every number the select
      control can produce and every number the schema accepts is one.
    - A JavaScript object is an association list in property order, because
      [JSON.stringify] emits members in that order.
    - The handlers run in a small state-and-exception monad over a [World]
      that holds the form state, the staging text and the trace of calls made
      to the outside (network, router, console).
    - The libraries the component calls (zod, react-hook-form, fetch, the
      router) are embedded by their documented behaviour, only as far as the
      component uses them. *)

From Stdlib Require Import List NArith ZArith Bool Lia String Ascii.
From Stdlib Require Decimal DecimalPos.
Import ListNotations.

(* ------------------------------------------------------------------------- *)
(** ** JavaScript strings                                                     *)
(* ------------------------------------------------------------------------- *)

Module JsString.

Local Open Scope N_scope.

Definition code_unit := N.
Definition t := list code_unit.

(** An ASCII literal as a JavaScript string. *)
Definition js (s : string) : t := map N_of_ascii (list_ascii_of_string s).

(** An ASCII literal in which every apostrophe stands for the double-quote
    character U+0022: used to write JSON texts down. *)
Definition json_text (s : string) : t :=
  map (fun c => if c =? 39 then 34 else c) (js s).

Fixpoint eqb (a b : t) : bool :=
  match a, b with
  | [], [] => true
  | x :: a', y :: b' => (x =? y) && eqb a' b'
  | _, _ => false
  end.

(** [s.length] *)
Definition length (s : t) : Z := Z.of_nat (List.length s).

(** Truthiness of a string: every string but the empty one. *)
Definition truthy (s : t) : bool :=
  match s with [] => false | _ :: _ => true end.

(** ECMAScript WhiteSpace and LineTerminator code points, the ones
    [String.prototype.trim] strips. All of them are in the basic plane, so
    a test per code unit is exact. *)
Definition is_white_space (c : code_unit) : bool :=
  (c =? 0x0009) || (c =? 0x000A) || (c =? 0x000B) || (c =? 0x000C)
  || (c =? 0x000D) || (c =? 0x0020) || (c =? 0x00A0) || (c =? 0x1680)
  || ((0x2000 <=? c) && (c <=? 0x200A))
  || (c =? 0x2028) || (c =? 0x2029) || (c =? 0x202F) || (c =? 0x205F)
  || (c =? 0x3000) || (c =? 0xFEFF).

Fixpoint trimStart (s : t) : t :=
  match s with
  | [] => []
  | c :: r => if is_white_space c then trimStart r else s
  end.

Definition trimEnd (s : t) : t := rev (trimStart (rev s)).

(** [s.trim()] *)
Definition trim (s : t) : t := trimEnd (trimStart s).

(** A string made of white space only (the empty string included). *)
Definition blank (s : t) : bool := forallb is_white_space s.

(** [arr.join(sep)] on an array of strings. *)
Fixpoint join (sep : t) (l : list t) : t :=
  match l with
  | [] => []
  | [x] => x
  | x :: r => x ++ sep ++ join sep r
  end.

(** [arr.includes(x)] on an array of strings (SameValueZero on strings is
    equality of the code-unit sequences). *)
Definition includes (l : list t) (x : t) : bool := existsb (eqb x) l.

(** Decimal digits of a non-negative integer, most significant first. *)
Fixpoint of_uint (d : Decimal.uint) : t :=
  match d with
  | Decimal.Nil => []
  | Decimal.D0 r => 48 :: of_uint r
  | Decimal.D1 r => 49 :: of_uint r
  | Decimal.D2 r => 50 :: of_uint r
  | Decimal.D3 r => 51 :: of_uint r
  | Decimal.D4 r => 52 :: of_uint r
  | Decimal.D5 r => 53 :: of_uint r
  | Decimal.D6 r => 54 :: of_uint r
  | Decimal.D7 r => 55 :: of_uint r
  | Decimal.D8 r => 56 :: of_uint r
  | Decimal.D9 r => 57 :: of_uint r
  end.

(** [String(n)] for an integer [n] (Number::toString, radix 10; exact for
    the integers a number holds exactly, of magnitude below 2^53, and so for
    every amount the form can hold; past 10^21 JavaScript switches to the
    exponent form). *)
Definition String_of_number (n : Z) : t :=
  match n with
  | Z0 => [48]
  | Zpos p => of_uint (Pos.to_uint p)
  | Zneg p => 45 :: of_uint (Pos.to_uint p)
  end.

Definition is_digit (c : code_unit) : bool := (48 <=? c) && (c <=? 57).

Fixpoint digits_value (acc : Z) (s : t) : option Z :=
  match s with
  | [] => Some acc
  | c :: r =>
      if is_digit c
      then digits_value (10 * acc + Z.of_N (c - 48))%Z r
      else None
  end.

(** [Number(s)] on the strings this component converts: white space is
    stripped, the empty string is 0, a run of decimal digits is its value.
    [None] stands for every other string (signs, fractions, exponents, other
    radices, [Infinity], and the strings that give [NaN]), none of which the
    select control emits. *)
Definition Number_of_string (s : t) : option Z := digits_value 0%Z (trim s).

End JsString.

Definition jsstring : Type := JsString.t.
Definition js : string -> jsstring := JsString.js.

Local Open Scope Z_scope.

(* ------------------------------------------------------------------------- *)
(** ** The draft and its validation schema                                    *)
(* ------------------------------------------------------------------------- *)

(** [z.infer<typeof formSchema>]: the values of the form. *)
Record Draft := mkDraft {
  type : jsstring;
  role : jsstring;
  level : jsstring;
  specialtySkills : list jsstring;
  amount : Z
}.

(** The part of zod the schema uses. A schema checks a value found at a path
    and reports issues; a value with no issue parses to itself (the schema has
    no transform). An issue carries the message given in the source, or stands
    for the library's default wording. *)
Module Zod.

Inductive PathSegment :=
| Key (k : jsstring)
| Index (i : nat).

Inductive IssueCode :=
| too_small_string (minimum : Z)
| too_small_array (minimum : Z)
| invalid_union.

Inductive Message :=
| Custom (m : jsstring)
| LibraryDefault.

Record Issue := mkIssue {
  path : list PathSegment;
  code : IssueCode;
  message : Message
}.

Definition Schema (A : Type) : Type := list PathSegment -> A -> list Issue.

(** [z.string().min(n, { message })] and [z.string().min(n)] *)
Definition string_min (n : Z) (msg : Message) : Schema jsstring :=
  fun p s =>
    if JsString.length s <? n then [mkIssue p (too_small_string n) msg] else [].

Fixpoint array_elements {A} (elem : Schema A) (p : list PathSegment)
         (i : nat) (l : list A) : list Issue :=
  match l with
  | [] => []
  | x :: r => elem (p ++ [Index i]) x ++ array_elements elem p (S i) r
  end.

(** [z.array(elem).min(n, { message })] *)
Definition array_min {A} (elem : Schema A) (n : Z) (msg : Message)
  : Schema (list A) :=
  fun p l =>
    (if Z.of_nat (List.length l) <? n
     then [mkIssue p (too_small_array n) msg] else [])
    ++ array_elements elem p 0 l.

(** [z.union([z.literal(a), z.literal(b), ...])] on numbers: the value must
    be strictly equal to one of the literals. *)
Definition union_of_literals (lits : list Z) : Schema Z :=
  fun p v =>
    if existsb (Z.eqb v) lits then []
    else [mkIssue p invalid_union LibraryDefault].

Inductive SafeParse (A : Type) :=
| Success (data : A)
| Failure (issues : list Issue).
Arguments Success {A} data.
Arguments Failure {A} issues.

Definition safeParse {A} (schema : Schema A) (v : A) : SafeParse A :=
  match schema [] v with
  | [] => Success v
  | i :: r => Failure (i :: r)
  end.

End Zod.

Import Zod.

Definition required_message : Message :=
  Custom (js "This field is required.").

Definition skills_message : Message :=
  Custom (js "Please add at least one skill.").

Definition amount_literals : list Z := [3; 5; 10; 15; 20].

(** [formSchema = z.object({ ... })]: every property is checked, in the order
    of the shape. *)
Definition formSchema : Schema Draft :=
  fun p d =>
    string_min 1 required_message (p ++ [Key (js "type")]) (type d)
    ++ string_min 1 required_message (p ++ [Key (js "role")]) (role d)
    ++ string_min 1 required_message (p ++ [Key (js "level")]) (level d)
    ++ array_min (string_min 1 LibraryDefault) 1 skills_message
         (p ++ [Key (js "specialtySkills")]) (specialtySkills d)
    ++ union_of_literals amount_literals (p ++ [Key (js "amount")]) (amount d).

(** [defaultValues] of [useForm] *)
Definition defaultValues : Draft :=
  {| type := js ""; role := js ""; level := js "";
     specialtySkills := []; amount := 5 |}.

(* ------------------------------------------------------------------------- *)
(** ** JavaScript values and [JSON.stringify]                                 *)
(* ------------------------------------------------------------------------- *)

Module Json.

#[warnings="-register-all"]
Inductive Value :=
| VUndefined
| VString (s : jsstring)
| VNumber (n : Z)
| VArray (l : list Value)
| VObject (props : list (jsstring * Value)).

(** Defining a property of an object under construction (a spread member or
    a [key: value] member of an object literal): an existing key keeps its
    place and takes the new value, a new key goes last. *)
Fixpoint define (k : jsstring) (v : Value) (o : list (jsstring * Value))
  : list (jsstring * Value) :=
  match o with
  | [] => [(k, v)]
  | (k', v') :: r =>
      if JsString.eqb k' k then (k, v) :: r else (k', v') :: define k v r
  end.

(** [{ ...src, <rest> }]: the own properties of [src] are defined in order. *)
Definition spread (src : list (jsstring * Value))
           (o : list (jsstring * Value)) : list (jsstring * Value) :=
  fold_left (fun acc kv => define (fst kv) (snd kv) acc) src o.

Local Open Scope N_scope.

Definition hex_digit (n : N) : N := if n <? 10 then 48 + n else 87 + n.

(** [\uXXXX] with lower-case hexadecimal digits *)
Definition unicode_escape (c : N) : jsstring :=
  [92; 117; hex_digit (c / 4096 mod 16); hex_digit (c / 256 mod 16);
   hex_digit (c / 16 mod 16); hex_digit (c mod 16)].

Definition is_leading_surrogate (c : N) : bool :=
  (0xD800 <=? c) && (c <=? 0xDBFF).
Definition is_trailing_surrogate (c : N) : bool :=
  (0xDC00 <=? c) && (c <=? 0xDFFF).

(** One code unit that is not a surrogate, as QuoteJSONString writes it. *)
Definition quote_unit (c : N) : jsstring :=
  if c =? 8 then [92; 98]
  else if c =? 9 then [92; 116]
  else if c =? 10 then [92; 110]
  else if c =? 12 then [92; 102]
  else if c =? 13 then [92; 114]
  else if c =? 34 then [92; 34]
  else if c =? 92 then [92; 92]
  else if c <? 32 then unicode_escape c
  else [c].

Fixpoint quote_units (s : jsstring) : jsstring :=
  match s with
  | [] => []
  | c :: r =>
      if is_leading_surrogate c then
        match r with
        | d :: r' =>
            if is_trailing_surrogate d then c :: d :: quote_units r'
            else unicode_escape c ++ quote_units r
        | [] => unicode_escape c
        end
      else if is_trailing_surrogate c then unicode_escape c ++ quote_units r
      else quote_unit c ++ quote_units r
  end.

(** QuoteJSONString *)
Definition QuoteJSONString (s : jsstring) : jsstring :=
  [34] ++ quote_units s ++ [34].

(** SerializeJSONProperty, SerializeJSONArray and SerializeJSONObject with
    no replacer and no indentation. [None] is [undefined]: a property whose
    value serializes to [undefined] gives no member, an array element that
    does is written [null]. *)
Fixpoint SerializeJSONProperty (v : Value) : option jsstring :=
  match v with
  | VUndefined => None
  | VString s => Some (QuoteJSONString s)
  | VNumber n => Some (JsString.String_of_number n)
  | VArray l =>
      Some ([91]
            ++ JsString.join [44]
                 (map (fun e => match SerializeJSONProperty e with
                                | Some t => t
                                | None => [110; 117; 108; 108]
                                end) l)
            ++ [93])
  | VObject props =>
      Some ([123]
            ++ JsString.join [44]
                 ((fix members (ps : list (jsstring * Value)) : list jsstring :=
                     match ps with
                     | [] => []
                     | (k, x) :: r =>
                         match SerializeJSONProperty x with
                         | Some t => (QuoteJSONString k ++ [58] ++ t) :: members r
                         | None => members r
                         end
                     end) props)
            ++ [125])
  end.

(** The members [SerializeJSONObject] emits, as (key, serialized value). *)
Fixpoint members (ps : list (jsstring * Value)) : list (jsstring * jsstring) :=
  match ps with
  | [] => []
  | (k, x) :: r =>
      match SerializeJSONProperty x with
      | Some t => (k, t) :: members r
      | None => members r
      end
  end.

Definition member_text (m : jsstring * jsstring) : jsstring :=
  QuoteJSONString (fst m) ++ [58] ++ snd m.

(** [JSON.stringify(v)] *)
Definition stringify (v : Value) : option jsstring := SerializeJSONProperty v.

End Json.

Import Json.

(* ------------------------------------------------------------------------- *)
(** ** The world of the component                                             *)
(* ------------------------------------------------------------------------- *)

(** A thrown value: an [Error] (or a subclass, by [name]) with its message. *)
Record JsError := mkError {
  error_name : jsstring;
  error_message : jsstring
}.

(** [new Error(message)] *)
Definition new_Error (m : jsstring) : JsError := mkError (js "Error") m.

(** The [init] argument of [fetch] together with its URL. *)
Record Request := mkRequest {
  url : jsstring;
  method : jsstring;
  headers : list (jsstring * jsstring);
  body : option jsstring
}.

Record Response := mkResponse { status : Z }.

(** [response.ok]: the status is in the range 200-299. *)
Definition ok (r : Response) : bool := (200 <=? status r) && (status r <=? 299).

(** What awaiting [fetch] gives: a response, whatever its status, or a
    rejection (a network-level failure). *)
Inductive FetchOutcome :=
| Resolves (r : Response)
| Rejects (e : JsError).

(** The network, as seen from the component. *)
Definition Network := Request -> FetchOutcome.

(** The methods of the router ([useRouter] of [next/navigation]). *)
Inductive RouterMethod :=
| push (href : jsstring)
| replace (href : jsstring)
| back
| forward
| prefetch (href : jsstring)
| refresh.

(** A navigation is any router call other than [refresh] and [prefetch]. *)
Definition is_navigation (m : RouterMethod) : bool :=
  match m with
  | push _ | replace _ | back | forward => true
  | prefetch _ | refresh => false
  end.

(** Calls the component makes to the outside. *)
Inductive Call :=
| CallFetch (req : Request)
| CallRouter (m : RouterMethod)
| CallConsoleError (e : JsError).

(** The current user of [useUser]: absent ([None]) when signed out or not
    loaded yet. *)
Record User := mkUser { id : jsstring }.

Record World := mkWorld {
  form_values : Draft;             (* the values react-hook-form holds *)
  form_errors : list Issue;        (* [formState.errors], what FormMessage shows *)
  skillInput : jsstring;           (* [useState("")] *)
  trace : list Call                (* calls made so far, oldest first *)
}.

Definition initial_world : World :=
  {| form_values := defaultValues; form_errors := [];
     skillInput := js ""; trace := [] |}.

(** *** A state-and-exception monad for the handlers *)

Inductive Outcome (A : Type) :=
| Returned (a : A)
| Threw (e : JsError).
Arguments Returned {A} a.
Arguments Threw {A} e.

Definition M (A : Type) : Type := World -> Outcome A * World.

Definition ret {A} (a : A) : M A := fun w => (Returned a, w).

Definition bind {A B} (c : M A) (k : A -> M B) : M B :=
  fun w =>
    match c w with
    | (Returned a, w') => k a w'
    | (Threw e, w') => (Threw e, w')
    end.

Definition throw {A} (e : JsError) : M A := fun w => (Threw e, w).

(** [try { c } catch (err) { handler(err) }] *)
Definition try_catch {A} (c : M A) (handler : JsError -> M A) : M A :=
  fun w =>
    match c w with
    | (Returned a, w') => (Returned a, w')
    | (Threw e, w') => handler e w'
    end.

Declare Scope handler_scope.
Delimit Scope handler_scope with handler.
Notation "x <- c ;; k" := (bind c (fun x => k))
  (at level 61, c at next level, right associativity) : handler_scope.
Notation "c ;; k" := (bind c (fun _ => k))
  (at level 61, right associativity) : handler_scope.
Local Open Scope handler_scope.

Definition emit (c : Call) : M unit :=
  fun w => (Returned tt,
            {| form_values := form_values w; form_errors := form_errors w;
               skillInput := skillInput w; trace := trace w ++ [c] |}).

(** [await fetch(url, init)] against a given network. *)
Definition fetch (net : Network) (req : Request) : M Response :=
  emit (CallFetch req) ;;
  match net req with
  | Resolves r => ret r
  | Rejects e => throw e
  end.

Definition console_error (e : JsError) : M unit := emit (CallConsoleError e).

Definition router_refresh : M unit := emit (CallRouter refresh).

(** *** react-hook-form, as the component uses it *)

Definition set_values (f : Draft -> Draft) : M unit :=
  fun w => (Returned tt,
            {| form_values := f (form_values w); form_errors := form_errors w;
               skillInput := skillInput w; trace := trace w |}).

Definition set_errors (errs : list Issue) : M unit :=
  fun w => (Returned tt,
            {| form_values := form_values w; form_errors := errs;
               skillInput := skillInput w; trace := trace w |}).

(** [form.getValues("specialtySkills")] *)
Definition getValues_specialtySkills : M (list jsstring) :=
  fun w => (Returned (specialtySkills (form_values w)), w).

(** The draft with another skill list. *)
Definition with_skills (d : Draft) (l : list jsstring) : Draft :=
  {| type := type d; role := role d; level := level d;
     specialtySkills := l; amount := amount d |}.

(** [form.setValue("specialtySkills", v)]: no validation is triggered. *)
Definition setValue_specialtySkills (v : list jsstring) : M unit :=
  set_values (fun d => with_skills d v).

(** [field.onChange(v)] of the four scalar fields. The validation that
    react-hook-form runs again on a change made after a submission is not
    embedded: the errors are read right after a submission only. *)
Definition onChange_type (v : jsstring) : M unit :=
  set_values (fun d => {| type := v; role := role d; level := level d;
                          specialtySkills := specialtySkills d;
                          amount := amount d |}).

Definition onChange_role (v : jsstring) : M unit :=
  set_values (fun d => {| type := type d; role := v; level := level d;
                          specialtySkills := specialtySkills d;
                          amount := amount d |}).

Definition onChange_level (v : jsstring) : M unit :=
  set_values (fun d => {| type := type d; role := role d; level := v;
                          specialtySkills := specialtySkills d;
                          amount := amount d |}).

Definition onChange_amount (v : Z) : M unit :=
  set_values (fun d => {| type := type d; role := role d; level := level d;
                          specialtySkills := specialtySkills d;
                          amount := v |}).

(** [form.reset()]: the values go back to [defaultValues] and the errors are
    cleared. *)
Definition form_reset : M unit :=
  set_values (fun _ => defaultValues) ;; set_errors [].

(** [zodResolver(formSchema)] *)
Definition resolver (d : Draft) : SafeParse Draft := safeParse formSchema d.

(** [form.handleSubmit(onValid)]: the values are validated by the resolver;
    with issues they become the form's errors and [onValid] is not called,
    with none the errors are cleared and [onValid] is awaited on the parsed
    values. *)
Definition handleSubmit (onValid : Draft -> M unit) : M unit :=
  fun w =>
    match resolver (form_values w) with
    | Failure issues => set_errors issues w
    | Success values => (set_errors [] ;; onValid values) w
    end.

(** [setSkillInput(v)] *)
Definition setSkillInput (v : jsstring) : M unit :=
  fun w => (Returned tt,
            {| form_values := form_values w; form_errors := form_errors w;
               skillInput := v; trace := trace w |}).

Definition get_skillInput : M jsstring := fun w => (Returned (skillInput w), w).

(* ------------------------------------------------------------------------- *)
(** ** The component [CreateForm]                                             *)
(* ------------------------------------------------------------------------- *)

(** [const skill = skillInput.trim()
     if (skill && !form.getValues("specialtySkills").includes(skill)) {
       form.setValue("specialtySkills", [...form.getValues("specialtySkills"), skill])
       setSkillInput("")
     }] *)
Definition handleAddSkill : M unit :=
  input <- get_skillInput ;;
  let skill := JsString.trim input in
  current <- getValues_specialtySkills ;;
  if JsString.truthy skill && negb (JsString.includes current skill)
  then
    current' <- getValues_specialtySkills ;;
    setValue_specialtySkills (current' ++ [skill]) ;;
    setSkillInput (js "")
  else ret tt.

(** [form.setValue("specialtySkills",
       form.getValues("specialtySkills").filter((s) => s !== skill))] *)
Definition handleRemoveSkill (skill : jsstring) : M unit :=
  current <- getValues_specialtySkills ;;
  setValue_specialtySkills
    (filter (fun s => negb (JsString.eqb s skill)) current).

(** The parsed values as an object: the properties of the schema's shape, in
    its order. *)
Definition values_object (values : Draft) : list (jsstring * Value) :=
  [ (js "type", VString (type values));
    (js "role", VString (role values));
    (js "level", VString (level values));
    (js "specialtySkills", VArray (map VString (specialtySkills values)));
    (js "amount", VNumber (amount values)) ].

(** [user?.id] *)
Definition user_id (user : option User) : Value :=
  match user with
  | Some u => VString (id u)
  | None => VUndefined
  end.

(** [{ ...values,
       specialtySkills: values.specialtySkills.join(", "),
       userid: user?.id }] *)
Definition payload_properties (user : option User) (values : Draft)
  : list (jsstring * Value) :=
  define (js "userid") (user_id user)
    (define (js "specialtySkills")
       (VString (JsString.join (js ", ") (specialtySkills values)))
       (spread (values_object values) [])).

Definition payload (user : option User) (values : Draft) : Value :=
  VObject (payload_properties user values).

Definition generate_request (user : option User) (values : Draft) : Request :=
  {| url := js "/api/vapi/generate";
     method := js "POST";
     headers := [(js "Content-Type", js "application/json")];
     body := stringify (payload user values) |}.

(** [try {
       const response = await fetch("/api/vapi/generate", { ... })
       if (!response.ok) throw new Error("Submission failed")
       form.reset()
       router.refresh()
     } catch (err) { console.error(err) }] *)
Definition onSubmit (user : option User) (net : Network) (values : Draft)
  : M unit :=
  try_catch
    (response <- fetch net (generate_request user values) ;;
     (if negb (ok response)
      then throw (new_Error (js "Submission failed"))
      else ret tt) ;;
     form_reset ;;
     router_refresh)
    (fun err => console_error err).

(** [<form onSubmit={form.handleSubmit(onSubmit)}>] *)
Definition submit (user : option User) (net : Network) : M unit :=
  handleSubmit (onSubmit user net).

(** The options the three select controls offer. *)
Definition type_options : list jsstring :=
  [js "technical"; js "behavioral"; js "mixed"].

Definition level_options : list jsstring :=
  [js "entry"; js "mid"; js "senior"; js "staff"; js "manager"].

Definition amount_options : list Z := [3; 5; 10; 15; 20].

(** [onValueChange={(val) => field.onChange(Number(val))}]. A string outside
    the fragment of [Number] that is embedded changes nothing here. *)
Definition amount_onValueChange (val : jsstring) : M unit :=
  match JsString.Number_of_string val with
  | Some n => onChange_amount n
  | None => ret tt
  end.

(** What the user can do with the rendered form. *)
Inductive Action :=
| SelectType (v : jsstring)        (* a SelectItem of the type control *)
| EditRole (v : jsstring)          (* typing in the role input *)
| SelectLevel (v : jsstring)       (* a SelectItem of the level control *)
| SelectAmount (opt : Z)           (* the SelectItem rendered for [opt] *)
| EditSkillInput (v : jsstring)    (* typing in the staging input *)
| AddSkill                         (* the Add button, or Enter in the input *)
| RemoveSkill (skill : jsstring)   (* the button of a skill's badge *)
| Submit (user : option User) (net : Network).

(** The controls present in a given world: a select offers its items only, a
    badge exists only for a committed skill. *)
Definition offered (a : Action) (w : World) : Prop :=
  match a with
  | SelectType v => In v type_options
  | SelectLevel v => In v level_options
  | SelectAmount opt => In opt amount_options
  | RemoveSkill skill => In skill (specialtySkills (form_values w))
  | EditRole _ | EditSkillInput _ | AddSkill | Submit _ _ => True
  end.

Definition perform (a : Action) : M unit :=
  match a with
  | SelectType v => onChange_type v
  | EditRole v => onChange_role v
  | SelectLevel v => onChange_level v
  | SelectAmount opt => amount_onValueChange (JsString.String_of_number opt)
  | EditSkillInput v => setSkillInput v
  | AddSkill => handleAddSkill
  | RemoveSkill skill => handleRemoveSkill skill
  | Submit user net => submit user net
  end.

(** The worlds the user can bring the mounted component to. A submission is
    one step: its request is answered before the next action, so a world
    with a request in flight is not among them. *)
Inductive reachable : World -> Prop :=
| reachable_mount : reachable initial_world
| reachable_step (w : World) (a : Action) :
    reachable w -> offered a w -> reachable (snd (perform a w)).

(** Scenario A of the specification. *)
Definition scenario_A_draft : Draft :=
  {| type := js "technical"; role := js "Frontend Engineer"; level := js "mid";
     specialtySkills := [js "React"; js "CSS"]; amount := 5 |}.

Definition scenario_A_user : option User := Some (mkUser (js "u_123")).

(* ------------------------------------------------------------------------- *)
(** ** Worlds, drafts and notions the statements use                          *)
(* ------------------------------------------------------------------------- *)

(** The form filled in as in scenario A, nothing submitted yet. *)
Definition scenario_A_world : World :=
  {| form_values := scenario_A_draft; form_errors := [];
     skillInput := js ""; trace := [] |}.

(** The invariant of the draft the specification states. *)
Definition draft_invariant (d : Draft) : Prop :=
  ~ In (js "") (specialtySkills d)
  /\ NoDup (specialtySkills d)
  /\ In (amount d) [3; 5; 10; 15; 20].

(** A router call that navigates, anywhere in a trace. *)
Definition navigates (c : Call) : bool :=
  match c with
  | CallRouter m => is_navigation m
  | _ => false
  end.

(** Equality of strings is decidable. *)
Definition jsstring_eq_dec : forall a b : jsstring, {a = b} + {a <> b} :=
  list_eq_dec N.eq_dec.

(** Worlds of the skill editor: a staging text with spaces around a word, a
    staging text of white space only (space, tab, no-break space, em space,
    line feed), and two committed skills. *)
Definition react_world : World :=
  {| form_values := defaultValues; form_errors := [];
     skillInput := js "  React "; trace := [] |}.

Definition blank_world : World :=
  {| form_values := with_skills defaultValues [js "React"];
     form_errors := []; skillInput := [32; 9; 160; 8195; 10]%N; trace := [] |}.

Definition two_skills_world : World :=
  {| form_values := with_skills defaultValues [js "React"; js "CSS"];
     form_errors := []; skillInput := js ""; trace := [] |}.

(** The issues of the schema that carry a message of the source. *)
Definition type_required : Issue :=
  mkIssue [Key (js "type")] (too_small_string 1) required_message.
Definition role_required : Issue :=
  mkIssue [Key (js "role")] (too_small_string 1) required_message.
Definition level_required : Issue :=
  mkIssue [Key (js "level")] (too_small_string 1) required_message.
Definition skills_minimum : Issue :=
  mkIssue [Key (js "specialtySkills")] (too_small_array 1) skills_message.

(** The world after the awaited [fetch] and what follows it. *)
Definition after_submit (user : option User) (net : Network)
           (values : Draft) (w : World) : World :=
  let request := generate_request user values in
  match net request with
  | Resolves r =>
      if ok r
      then {| form_values := defaultValues; form_errors := [];
              skillInput := skillInput w;
              trace := trace w ++ [CallFetch request; CallRouter refresh] |}
      else {| form_values := form_values w; form_errors := form_errors w;
              skillInput := skillInput w;
              trace := trace w
                       ++ [CallFetch request;
                           CallConsoleError
                             (new_Error (js "Submission failed"))] |}
  | Rejects e =>
      {| form_values := form_values w; form_errors := form_errors w;
         skillInput := skillInput w;
         trace := trace w ++ [CallFetch request; CallConsoleError e] |}
  end.

(** The five members every body has. *)
Definition draft_members (values : Draft) : list (jsstring * jsstring) :=
  [ (js "type", QuoteJSONString (type values));
    (js "role", QuoteJSONString (role values));
    (js "level", QuoteJSONString (level values));
    (js "specialtySkills",
     QuoteJSONString (JsString.join (js ", ") (specialtySkills values)));
    (js "amount", JsString.String_of_number (amount values)) ].

(** A draft whose role is one space, and is otherwise that of scenario A. *)
Definition blank_role_draft : Draft :=
  {| type := js "technical"; role := js " "; level := js "mid";
     specialtySkills := [js "React"; js "CSS"]; amount := 5 |}.


Definition always_200 : Network := fun _ => Resolves (mkResponse 200).


Definition no_skills_world : World :=
  {| form_values :=
       {| type := js "technical"; role := js "Frontend Engineer";
          level := js "mid"; specialtySkills := []; amount := 5 |};
     form_errors := []; skillInput := js ""; trace := [] |}.

(** The error [onSubmit] catches when the request does not succeed. *)
Definition caught_error (o : FetchOutcome) : JsError :=
  match o with
  | Resolves _ => new_Error (js "Submission failed")
  | Rejects e => e
  end.

(** The request did not succeed: it was rejected, or answered with a status
    outside 200-299. *)
Definition unsuccessful (o : FetchOutcome) : Prop :=
  match o with
  | Resolves r => ok r = false
  | Rejects _ => True
  end.

Definition always_500 : Network := fun _ => Resolves (mkResponse 500).

(** The world after typing a skill, adding it and selecting ten questions. *)
Definition after_some_actions : World :=
  snd (perform (SelectAmount 10)
         (snd (perform AddSkill
                 (snd (perform (EditSkillInput (js " React ")) initial_world))))).

(* ------------------------------------------------------------------------- *)
(** ** The rest of the rendered form                                          *)
(* ------------------------------------------------------------------------- *)

(** [disabled={!skillInput.trim()}] of the Add button. *)
Definition add_disabled (w : World) : bool :=
  negb (JsString.truthy (JsString.trim (skillInput w))).

(** The keyboard event the staging input receives: its key, and whether
    [preventDefault] was called on it. *)
Record KeyboardEvent := mkKeyboardEvent {
  key : jsstring;
  defaultPrevented : bool
}.

(** [e.preventDefault()] *)
Definition preventDefault (e : KeyboardEvent) : KeyboardEvent :=
  {| key := key e; defaultPrevented := true |}.

(** [onKeyDown={(e) => {
       if (e.key === "Enter") { e.preventDefault(); handleAddSkill() }
     }}]; the event is returned as the handler leaves it. *)
Definition onKeyDown (e : KeyboardEvent) : M KeyboardEvent :=
  if JsString.eqb (key e) (js "Enter")
  then
    let e' := preventDefault e in
    handleAddSkill ;;
    ret e'
  else ret e.

(** [form.watch("specialtySkills").map((skill, i) => ...
       onClick={() => handleRemoveSkill(skill)} ...)]: the button of the
    badge at index [i]. There is no badge past the end of the list. *)
Definition badge_onClick (i : nat) : M unit :=
  skills <- getValues_specialtySkills ;;
  match nth_error skills i with
  | Some skill => handleRemoveSkill skill
  | None => ret tt
  end.

(** [value={String(field.value)}] of the amount select, and the values of its
    items, [value={String(opt)}]. *)
Definition amount_select_value (w : World) : jsstring :=
  JsString.String_of_number (amount (form_values w)).

Definition amount_item_values : list jsstring :=
  map JsString.String_of_number amount_options.

(** A string with no white space at its start. *)
Definition starts_clean (s : jsstring) : bool :=
  match s with
  | [] => true
  | c :: _ => negb (JsString.is_white_space c)
  end.


(** A call that, when it is a request, is the request of a draft the schema
    accepts. *)
Definition validated_request (c : Call) : Prop :=
  match c with
  | CallFetch req =>
      exists (user : option User) (d : Draft),
        formSchema [] d = [] /\ req = generate_request user d
  | _ => True
  end.

(** The issue of the amount, and of the skill at index [i]. *)
Definition amount_invalid : Issue :=
  mkIssue [Key (js "amount")] invalid_union LibraryDefault.

Definition skill_element_empty (i : nat) : Issue :=
  mkIssue [Key (js "specialtySkills"); Index i] (too_small_string 1)
    LibraryDefault.

(** The code unit of the comma. *)
Definition comma : N := 44%N.

(** Worlds and events of the examples. *)
Definition amount_seven_world : World :=
  {| form_values :=
       {| type := js "technical"; role := js "Frontend Engineer";
          level := js "mid"; specialtySkills := [js "React"]; amount := 7 |};
     form_errors := []; skillInput := js ""; trace := [] |}.

Definition empty_element_world : World :=
  {| form_values :=
       {| type := js "technical"; role := js "Frontend Engineer";
          level := js "mid"; specialtySkills := [js "React"; js ""];
          amount := 5 |};
     form_errors := []; skillInput := js ""; trace := [] |}.

Definition enter_key : KeyboardEvent :=
  {| key := js "Enter"; defaultPrevented := false |}.

(** The world after filling the form in as in scenario A, with one skill, and
    submitting it to a network that answers 200. *)
Definition filled_in : World :=
  snd (perform AddSkill
    (snd (perform (EditSkillInput (js "React"))
      (snd (perform (SelectLevel (js "mid"))
        (snd (perform (EditRole (js "Frontend Engineer"))
          (snd (perform (SelectType (js "technical")) initial_world))))))))).

Definition filled_in_and_submitted : World :=
  snd (perform (Submit scenario_A_user always_200) filled_in).

(* ------------------------------------------------------------------------- *)
(** ** Facts about strings                                                    *)
(* ------------------------------------------------------------------------- *)

Section StringFacts.

Lemma eqb_spec (a b : jsstring) : reflect (a = b) (JsString.eqb a b).
Proof.
  revert b; induction a as [|x a IH]; intros [|y b]; simpl;
    try (constructor; congruence).
  destruct (N.eqb_spec x y) as [->|Hxy]; simpl.
  - destruct (IH b) as [->|Hab]; constructor; congruence.
  - constructor; congruence.
Qed.

Lemma eqb_refl (a : jsstring) : JsString.eqb a a = true.
Proof. destruct (eqb_spec a a); congruence. Qed.

Lemma truthy_nonempty (s : jsstring) : JsString.truthy s = true <-> s <> [].
Proof. destruct s; simpl; split; congruence. Qed.

Lemma includes_In (l : list jsstring) (x : jsstring) :
  JsString.includes l x = true <-> In x l.
Proof.
  unfold JsString.includes. rewrite existsb_exists. split.
  - intros (y & Hy & Heq). destruct (eqb_spec x y) as [->|]; [assumption | discriminate].
  - intros H. exists x. split; [assumption | apply eqb_refl].
Qed.

Lemma includes_not_In (l : list jsstring) (x : jsstring) :
  JsString.includes l x = false <-> ~ In x l.
Proof.
  rewrite <- includes_In. destruct (JsString.includes l x); split; congruence.
Qed.

Lemma trimStart_blank (s : jsstring) :
  JsString.blank s = true -> JsString.trimStart s = [].
Proof.
  induction s as [|c r IH]; simpl; [reflexivity|].
  intros H. apply andb_true_iff in H as [Hc Hr]. rewrite Hc. auto.
Qed.

Lemma trim_blank (s : jsstring) :
  JsString.blank s = true -> JsString.trim s = [].
Proof.
  intros H. unfold JsString.trim. rewrite (trimStart_blank s H). reflexivity.
Qed.

End StringFacts.

(* ------------------------------------------------------------------------- *)
(** ** The skill-list editor                                                  *)
(* ------------------------------------------------------------------------- *)

Section SkillEditor.

(** [handleAddSkill], with the monad unfolded. *)
Lemma handleAddSkill_unfold (w : World) :
  handleAddSkill w
  = let skill := JsString.trim (skillInput w) in
    let skills := specialtySkills (form_values w) in
    if JsString.truthy skill && negb (JsString.includes skills skill)
    then (Returned tt,
          {| form_values := with_skills (form_values w) (skills ++ [skill]);
             form_errors := form_errors w;
             skillInput := js "";
             trace := trace w |})
    else (Returned tt, w).
Proof.
  unfold handleAddSkill, bind, get_skillInput, getValues_specialtySkills.
  cbn zeta.
  destruct (JsString.truthy (JsString.trim (skillInput w))
            && negb (JsString.includes (specialtySkills (form_values w))
                       (JsString.trim (skillInput w)))); reflexivity.
Qed.

Lemma handleAddSkill_commits (w : World) :
  let skill := JsString.trim (skillInput w) in
  let skills := specialtySkills (form_values w) in
  skill <> [] -> ~ In skill skills ->
  handleAddSkill w
  = (Returned tt,
     {| form_values := with_skills (form_values w) (skills ++ [skill]);
        form_errors := form_errors w;
        skillInput := js "";
        trace := trace w |}).
Proof.
  intros skill skills Hne Hnew. rewrite handleAddSkill_unfold. cbn zeta.
  fold skill skills.
  apply truthy_nonempty in Hne. apply includes_not_In in Hnew.
  rewrite Hne, Hnew. reflexivity.
Qed.

Lemma handleAddSkill_noop (w : World) :
  let skill := JsString.trim (skillInput w) in
  let skills := specialtySkills (form_values w) in
  skill = [] \/ In skill skills ->
  handleAddSkill w = (Returned tt, w).
Proof.
  intros skill skills H. rewrite handleAddSkill_unfold. cbn zeta.
  fold skill skills.
  destruct H as [H|H].
  - rewrite H. reflexivity.
  - apply includes_In in H. rewrite H, andb_false_r. reflexivity.
Qed.

(** Whatever the world, a second [handleAddSkill] right after a first one
    changes nothing: either the first one cleared the staging text, or it
    was itself a no-op. *)
Lemma handleAddSkill_twice (w : World) :
  let w1 := snd (handleAddSkill w) in
  handleAddSkill w1 = (Returned tt, w1).
Proof.
  cbn zeta. rewrite (handleAddSkill_unfold w). cbn zeta.
  destruct (JsString.truthy (JsString.trim (skillInput w))
            && negb (JsString.includes (specialtySkills (form_values w))
                       (JsString.trim (skillInput w)))) eqn:E; cbn [snd].
  - apply handleAddSkill_noop. left. reflexivity.
  - rewrite handleAddSkill_unfold. cbn zeta. rewrite E. reflexivity.
Qed.

(** The skills after the user types [text] and adds it. *)
Lemma skills_after_add (w : World) (text : jsstring) :
  let skill := JsString.trim text in
  let skills := specialtySkills (form_values w) in
  let w1 := snd (handleAddSkill (snd (setSkillInput text w))) in
  (skill <> [] /\ ~ In skill skills
   /\ specialtySkills (form_values w1) = skills ++ [skill])
  \/ ((skill = [] \/ In skill skills)
      /\ specialtySkills (form_values w1) = skills).
Proof.
  cbn zeta.
  destruct (jsstring_eq_dec (JsString.trim text) []) as [He|He].
  - right. split; [left; assumption|].
    rewrite handleAddSkill_noop; [reflexivity | left; assumption].
  - destruct (in_dec jsstring_eq_dec (JsString.trim text)
                (specialtySkills (form_values w))) as [Hi|Hi].
    + right. split; [right; assumption|].
      rewrite handleAddSkill_noop; [reflexivity | right; assumption].
    + left. repeat split; try assumption.
      rewrite handleAddSkill_commits; [reflexivity | assumption | assumption].
Qed.

(** C6. [handleAddSkill] trims the staging text [text]. When the trimmed
    text is not empty and is not in the committed list (equality of strings,
    so the case of letters counts), the committed list becomes the old list
    followed by the trimmed text and the staging text is cleared; otherwise
    nothing changes at all, the list and the staging text included. Hence
    adding is idempotent: a second call, right away or after the same text
    has been typed again, leaves the list as the first call left it, so the
    two calls together add the trimmed text once, after the elements that
    were there, or not at all. *)
Theorem addSkill_appends_once (w : World) (text : jsstring) :
  let w0 := snd (setSkillInput text w) in
  let skill := JsString.trim text in
  let d := form_values w in
  let skills := specialtySkills d in
  let w1 := snd (handleAddSkill w0) in
  let w2 := snd (handleAddSkill (snd (setSkillInput text w1))) in
  (skill <> [] -> ~ In skill skills ->
   handleAddSkill w0
   = (Returned tt,
      {| form_values :=
           {| type := type d; role := role d; level := level d;
              specialtySkills := skills ++ [skill]; amount := amount d |};
         form_errors := form_errors w;
         skillInput := js "";
         trace := trace w |})
   /\ specialtySkills (form_values w1) = skills ++ [skill]
   /\ skillInput w1 = js ""
   /\ specialtySkills (form_values w2) = skills ++ [skill])
  /\ (skill = [] \/ In skill skills ->
      handleAddSkill w0 = (Returned tt, w0)
      /\ specialtySkills (form_values w1) = skills
      /\ skillInput w1 = text
      /\ specialtySkills (form_values w2) = skills)
  /\ handleAddSkill w1 = (Returned tt, w1)
  /\ specialtySkills (form_values w2) = specialtySkills (form_values w1).
Proof.
  intros w0 skill d skills w1 w2.
  assert (H2 : specialtySkills (form_values w2)
               = specialtySkills (form_values w1)).
  { subst w2.
    destruct (skills_after_add w text) as [(Hne & Hni & E1)|(Hno & E1)];
      fold w0 in E1; fold w1 in E1.
    - rewrite handleAddSkill_noop; [reflexivity|].
      right. cbn [snd setSkillInput skillInput form_values]. rewrite E1.
      apply in_or_app. right. left. reflexivity.
    - rewrite handleAddSkill_noop; [reflexivity|].
      cbn [snd setSkillInput skillInput form_values]. rewrite E1. exact Hno. }
  split; [|split; [|split]].
  - intros Hne Hni.
    assert (E : handleAddSkill w0
                = (Returned tt,
                   {| form_values :=
                        {| type := type d; role := role d; level := level d;
                           specialtySkills := skills ++ [skill];
                           amount := amount d |};
                      form_errors := form_errors w;
                      skillInput := js "";
                      trace := trace w |}))
      by exact (handleAddSkill_commits w0 Hne Hni).
    assert (E1 : specialtySkills (form_values w1) = skills ++ [skill])
      by (subst w1; rewrite E; reflexivity).
    split; [exact E|]. split; [exact E1|]. split.
    + subst w1. rewrite E. reflexivity.
    + rewrite H2. exact E1.
  - intros H.
    assert (E : handleAddSkill w0 = (Returned tt, w0))
      by exact (handleAddSkill_noop w0 H).
    assert (E1 : specialtySkills (form_values w1) = skills)
      by (subst w1; rewrite E; reflexivity).
    split; [exact E|]. split; [exact E1|]. split.
    + subst w1. rewrite E. reflexivity.
    + rewrite H2. exact E1.
  - exact (handleAddSkill_twice w0).
  - exact H2.
Qed.

Lemma addSkill_appends_once_witness :
  specialtySkills (form_values (snd (handleAddSkill react_world)))
  = [js "React"]
  /\ skillInput (snd (handleAddSkill react_world)) = js ""
  /\ specialtySkills
       (form_values
          (snd (handleAddSkill
                  (snd (setSkillInput (js "  React ")
                          (snd (handleAddSkill react_world)))))))
     = [js "React"].
Proof.
  destruct (proj1 (addSkill_appends_once react_world (js "  React ")))
    as (_ & H1 & H0 & H2).
  - vm_compute. discriminate.
  - vm_compute. intros [].
  - split; [exact H1 | split; [exact H0 | exact H2]].
Defined.

(** The match on committed skills is exact: a skill that differs from a
    committed one by the case of a letter is added. *)
Example addSkill_is_case_sensitive :
  specialtySkills
    (form_values
       (snd (handleAddSkill
               {| form_values := with_skills defaultValues [js "React"];
                  form_errors := []; skillInput := js "react"; trace := [] |})))
  = [js "React"; js "react"].
Proof. reflexivity. Qed.

(** C7. When the staging text is made of white space only (the empty text
    included), [handleAddSkill] changes neither the committed list nor the
    staging text: the world is left as it was. *)
Theorem addSkill_blank_noop (w : World) :
  JsString.blank (skillInput w) = true ->
  handleAddSkill w = (Returned tt, w).
Proof.
  intros H. apply handleAddSkill_noop. left. apply trim_blank. exact H.
Qed.

Lemma addSkill_blank_noop_witness :
  handleAddSkill blank_world = (Returned tt, blank_world).
Proof. apply (addSkill_blank_noop blank_world). reflexivity. Defined.

Lemma filter_differs_remove (skill : jsstring) (l : list jsstring) :
  filter (fun s => negb (JsString.eqb s skill)) l
  = remove jsstring_eq_dec skill l.
Proof.
  induction l as [|x l IH]; simpl; [reflexivity|].
  destruct (jsstring_eq_dec skill x) as [<-|Hne].
  - rewrite eqb_refl. simpl. exact IH.
  - destruct (eqb_spec x skill) as [->|_]; [congruence|].
    simpl. rewrite IH. reflexivity.
Qed.

Lemma count_occ_remove_other (skill s : jsstring) (l : list jsstring) :
  s <> skill ->
  count_occ jsstring_eq_dec (remove jsstring_eq_dec skill l) s
  = count_occ jsstring_eq_dec l s.
Proof.
  intros Hs. induction l as [|x l IH]; [reflexivity|].
  cbn [remove]. destruct (jsstring_eq_dec skill x) as [<-|Hne].
  - rewrite IH. symmetry. apply count_occ_cons_neq. congruence.
  - cbn [count_occ]. rewrite IH. reflexivity.
Qed.

Lemma handleRemoveSkill_unfold (skill : jsstring) (w : World) :
  handleRemoveSkill skill w
  = (Returned tt,
     {| form_values :=
          with_skills (form_values w)
            (filter (fun s => negb (JsString.eqb s skill))
               (specialtySkills (form_values w)));
        form_errors := form_errors w;
        skillInput := skillInput w;
        trace := trace w |}).
Proof. reflexivity. Qed.

(** C8. [handleRemoveSkill skill] always returns, and touches the committed
    list only. The committed list it leaves is the old one without the
    elements equal to [skill] (the library's [remove]): [skill] is no longer
    in it, every other string occurs in it as many times as before, and a
    list that did not contain [skill] is left as it was. *)
Theorem removeSkill_removes_all (w : World) (skill : jsstring) :
  let d := form_values w in
  let skills := specialtySkills d in
  let skills' :=
    specialtySkills (form_values (snd (handleRemoveSkill skill w))) in
  handleRemoveSkill skill w
  = (Returned tt,
     {| form_values :=
          {| type := type d; role := role d; level := level d;
             specialtySkills := remove jsstring_eq_dec skill skills;
             amount := amount d |};
        form_errors := form_errors w;
        skillInput := skillInput w;
        trace := trace w |})
  /\ skills' = remove jsstring_eq_dec skill skills
  /\ ~ In skill skills'
  /\ (forall s, s <> skill ->
      count_occ jsstring_eq_dec skills' s = count_occ jsstring_eq_dec skills s)
  /\ (~ In skill skills -> skills' = skills).
Proof.
  intros d skills skills'.
  assert (E : skills' = remove jsstring_eq_dec skill skills).
  { subst skills'. rewrite handleRemoveSkill_unfold, filter_differs_remove.
    reflexivity. }
  split; [|split; [exact E | rewrite E; split; [|split]]].
  - rewrite handleRemoveSkill_unfold, filter_differs_remove. reflexivity.
  - apply remove_In.
  - intros s Hs. apply count_occ_remove_other. exact Hs.
  - intros H. apply notin_remove. exact H.
Qed.

Lemma removeSkill_removes_all_witness :
  specialtySkills
    (form_values (snd (handleRemoveSkill (js "Go") two_skills_world)))
  = [js "React"; js "CSS"]
  /\ specialtySkills
       (form_values (snd (handleRemoveSkill (js "CSS") two_skills_world)))
     = [js "React"].
Proof.
  split.
  - apply (proj2 (proj2 (proj2 (proj2
             (removeSkill_removes_all two_skills_world (js "Go")))))).
    vm_compute. intros [H|[H|[]]]; discriminate H.
  - exact (proj1 (proj2
             (removeSkill_removes_all two_skills_world (js "CSS")))).
Defined.

Example removeSkill_removes_every_occurrence :
  specialtySkills
    (form_values
       (snd (handleRemoveSkill (js "CSS")
               {| form_values :=
                    with_skills defaultValues [js "CSS"; js "React"; js "CSS"];
                  form_errors := []; skillInput := js ""; trace := [] |})))
  = [js "React"].
Proof. reflexivity. Qed.

End SkillEditor.

(* ------------------------------------------------------------------------- *)
(** ** Validation                                                             *)
(* ------------------------------------------------------------------------- *)

Section Validation.

Lemma resolver_valid (d : Draft) :
  formSchema [] d = [] -> resolver d = Success d.
Proof. unfold resolver, safeParse. intros ->. reflexivity. Qed.

Lemma resolver_invalid (d : Draft) :
  formSchema [] d <> [] -> resolver d = Failure (formSchema [] d).
Proof.
  unfold resolver, safeParse. destruct (formSchema [] d); congruence.
Qed.

Lemma resolver_Success (d values : Draft) :
  resolver d = Success values -> values = d /\ formSchema [] d = [].
Proof.
  unfold resolver, safeParse. destruct (formSchema [] d); intros H.
  - injection H as <-. split; reflexivity.
  - discriminate H.
Qed.


Lemma string_min_nonempty (msg : Message) (p : list PathSegment) (s : jsstring) :
  s <> [] -> string_min 1 msg p s = [].
Proof.
  intros H. destruct s as [|c r]; [congruence|].
  unfold string_min, JsString.length.
  destruct (Z.ltb_spec (Z.of_nat (List.length (c :: r))) 1) as [Hlt|_];
    [|reflexivity].
  cbn [List.length] in Hlt. lia.
Qed.




Lemma skills_issue (d : Draft) :
  specialtySkills d = [] -> In skills_minimum (formSchema [] d).
Proof.
  intros H. unfold formSchema. rewrite H.
  do 3 (apply in_or_app; right). apply in_or_app. left. left. reflexivity.
Qed.

Lemma In_nonempty {A} (x : A) (l : list A) : In x l -> l <> [].
Proof. destruct l; [intros [] | discriminate]. Qed.

(** A submission the resolver rejects: the issues become the form's errors,
    and nothing else happens. *)
Lemma submit_invalid (user : option User) (net : Network) (w : World) :
  formSchema [] (form_values w) <> [] ->
  submit user net w
  = (Returned tt,
     {| form_values := form_values w;
        form_errors := formSchema [] (form_values w);
        skillInput := skillInput w;
        trace := trace w |}).
Proof.
  intros H. unfold submit, handleSubmit.
  rewrite resolver_invalid by exact H. reflexivity.
Qed.

End Validation.

(* ------------------------------------------------------------------------- *)
(** ** The submit handler                                                     *)
(* ------------------------------------------------------------------------- *)

Section Submit.

Variable user : option User.
Variable net : Network.

(** [onSubmit] never throws, and ends in [after_submit]. *)
Lemma onSubmit_unfold (values : Draft) (w : World) :
  onSubmit user net values w = (Returned tt, after_submit user net values w).
Proof.
  unfold onSubmit, after_submit, try_catch, fetch, bind, console_error,
    router_refresh, form_reset, set_values, set_errors, bind, emit, throw.
  cbn zeta. destruct (net (generate_request user values)) as [r|e].
  - unfold ret. destruct (ok r); cbn.
    + rewrite <- ?app_assoc. reflexivity.
    + rewrite <- ?app_assoc. reflexivity.
  - cbn. rewrite <- ?app_assoc. reflexivity.
Qed.

(** A submission the resolver accepts: the errors are cleared and [onSubmit]
    runs on the values of the form. *)
Lemma submit_valid (w : World) :
  formSchema [] (form_values w) = [] ->
  submit user net w
  = (Returned tt,
     after_submit user net (form_values w)
       {| form_values := form_values w; form_errors := [];
          skillInput := skillInput w; trace := trace w |}).
Proof.
  intros H. unfold submit, handleSubmit.
  rewrite resolver_valid by exact H.
  unfold bind, set_errors. rewrite onSubmit_unfold. reflexivity.
Qed.

End Submit.

(* ------------------------------------------------------------------------- *)
(** ** The request body                                                       *)
(* ------------------------------------------------------------------------- *)

Section RequestBody.

(** The object literal of [onSubmit], property by property. *)
Lemma payload_properties_eq (user : option User) (values : Draft) :
  payload_properties user values
  = [ (js "type", VString (type values));
      (js "role", VString (role values));
      (js "level", VString (level values));
      (js "specialtySkills",
       VString (JsString.join (js ", ") (specialtySkills values)));
      (js "amount", VNumber (amount values));
      (js "userid", user_id user) ].
Proof. reflexivity. Qed.

(** [JSON.stringify] of an object: its members between braces. *)
Lemma stringify_object (ps : list (jsstring * Value)) :
  stringify (VObject ps)
  = Some ([123] ++ JsString.join [44] (map member_text (members ps)) ++ [125])%N.
Proof.
  unfold stringify. cbn [SerializeJSONProperty]. do 4 f_equal.
  induction ps as [|[k x] r IH]; [reflexivity|].
  cbn [members]. destruct (SerializeJSONProperty x) as [t|].
  - cbn [map]. rewrite IH. reflexivity.
  - exact IH.
Qed.

Lemma payload_members (user : option User) (values : Draft) :
  members (payload_properties user values)
  = draft_members values
    ++ match user with
       | Some u => [(js "userid", QuoteJSONString (id u))]
       | None => []
       end.
Proof. rewrite payload_properties_eq. destruct user; reflexivity. Qed.

End RequestBody.

(** C1. When the draft is valid, submitting issues a request whose body is
    the JSON text of the object made of the draft's [type], [role] and
    [level], of [specialtySkills] as the skills joined with a comma and a
    space, of [amount], and of [userid] set to the user's identifier. For the
    draft and the user of scenario A the body is the text the specification
    gives. *)
Theorem submit_builds_request_body
        (user : option User) (net : Network) (w : World) :
  formSchema [] (form_values w) = [] ->
  let d := form_values w in
  let body_object :=
    VObject
      [ (js "type", VString (type d));
        (js "role", VString (role d));
        (js "level", VString (level d));
        (js "specialtySkills",
         VString (JsString.join (js ", ") (specialtySkills d)));
        (js "amount", VNumber (amount d));
        (js "userid", user_id user) ] in
  let request :=
    {| url := js "/api/vapi/generate";
       method := js "POST";
       headers := [(js "Content-Type", js "application/json")];
       body := stringify body_object |} in
  (exists rest,
      trace (snd (submit user net w)) = trace w ++ CallFetch request :: rest)
  /\ (d = scenario_A_draft -> user = scenario_A_user ->
      body request
      = Some (JsString.json_text
          "{'type':'technical','role':'Frontend Engineer','level':'mid','specialtySkills':'React, CSS','amount':5,'userid':'u_123'}")).
Proof.
  intros Hvalid d body_object request. split.
  - rewrite submit_valid by exact Hvalid. cbn [snd].
    assert (Hreq : generate_request user (form_values w) = request)
      by reflexivity.
    unfold after_submit. cbn zeta. rewrite Hreq.
    destruct (net request) as [r|e]; [destruct (ok r)|]; cbn [trace];
      eexists; reflexivity.
  - intros Hd Hu. subst request body_object. cbn [body].
    fold d. rewrite Hd, Hu. vm_compute. reflexivity.
Qed.

Lemma submit_builds_request_body_witness :
  exists rest,
    trace (snd (submit scenario_A_user (fun _ => Resolves (mkResponse 200))
                  scenario_A_world))
    = CallFetch
        {| url := js "/api/vapi/generate";
           method := js "POST";
           headers := [(js "Content-Type", js "application/json")];
           body := Some (JsString.json_text
             "{'type':'technical','role':'Frontend Engineer','level':'mid','specialtySkills':'React, CSS','amount':5,'userid':'u_123'}") |}
      :: rest.
Proof.
  destruct (submit_builds_request_body scenario_A_user
              (fun _ => Resolves (mkResponse 200)) scenario_A_world
              eq_refl) as [[rest Hrest] Hbody].
  specialize (Hbody eq_refl eq_refl). cbn [body] in Hbody.
  exists rest. rewrite Hrest, Hbody. reflexivity.
Defined.

(* ------------------------------------------------------------------------- *)
(** ** Blocked submissions                                                    *)
(* ------------------------------------------------------------------------- *)




(** C3. When the skill list is empty, the resolver fails with the
    minimum-count issue of [specialtySkills], the issues become the form's
    errors, and the submission stops there: [onSubmit] is not called, so no
    request body is built and no call is made to the outside. *)
Theorem empty_skills_block_submit
        (user : option User) (net : Network) (w : World) :
  let d := form_values w in
  specialtySkills d = [] ->
  exists issues,
    resolver d = Failure issues
    /\ In skills_minimum issues
    /\ submit user net w
       = (Returned tt,
          {| form_values := d; form_errors := issues;
             skillInput := skillInput w; trace := trace w |}).
Proof.
  intros d H.
  assert (Hne : formSchema [] d <> [])
    by exact (In_nonempty _ _ (skills_issue d H)).
  exists (formSchema [] d). repeat split.
  - apply resolver_invalid. exact Hne.
  - apply skills_issue. exact H.
  - apply submit_invalid. exact Hne.
Qed.

Lemma empty_skills_block_submit_witness :
  exists issues,
    In skills_minimum issues
    /\ trace (snd (submit None always_200 no_skills_world)) = [].
Proof.
  destruct (empty_skills_block_submit None always_200 no_skills_world eq_refl)
    as (issues & _ & Hin & Hsubmit).
  exists issues. split; [exact Hin | rewrite Hsubmit; reflexivity].
Defined.

(* ------------------------------------------------------------------------- *)
(** ** The outcome of a submission                                            *)
(* ------------------------------------------------------------------------- *)

(** C4. A valid draft is submitted and the request is rejected or answered
    with a status outside 200-299. Then the handler returns normally (the
    error is caught), the only call after the request is [console.error] on
    the caught error, the values of the form are those that were submitted,
    and the form shows no error. *)
Theorem failed_submission_keeps_draft
        (user : option User) (net : Network) (w : World) :
  let d := form_values w in
  let request := generate_request user d in
  formSchema [] d = [] ->
  unsuccessful (net request) ->
  submit user net w
  = (Returned tt,
     {| form_values := d;
        form_errors := [];
        skillInput := skillInput w;
        trace := trace w
                 ++ [CallFetch request;
                     CallConsoleError (caught_error (net request))] |}).
Proof.
  intros d request Hvalid Hfail.
  rewrite submit_valid by exact Hvalid.
  unfold after_submit. cbn zeta. fold d. fold request.
  destruct (net request) as [r|e]; cbn in Hfail |- *.
  - rewrite Hfail. reflexivity.
  - reflexivity.
Qed.

Lemma failed_submission_keeps_draft_witness :
  submit scenario_A_user always_500 scenario_A_world
  = (Returned tt,
     {| form_values := scenario_A_draft;
        form_errors := [];
        skillInput := js "";
        trace := [CallFetch (generate_request scenario_A_user scenario_A_draft);
                  CallConsoleError (new_Error (js "Submission failed"))] |}).
Proof.
  apply (failed_submission_keeps_draft scenario_A_user always_500
           scenario_A_world); reflexivity.
Defined.

(** C5. A valid draft is submitted and the request is answered with a status
    in 200-299. Then the values of the form are the default ones (empty
    [type], [role] and [level], no skill, [amount] 5), and the only call
    after the request is [router.refresh()]: no call of the handler
    navigates. *)
Theorem successful_submission_resets_draft
        (user : option User) (net : Network) (w : World) (r : Response) :
  let d := form_values w in
  let request := generate_request user d in
  let w' := snd (submit user net w) in
  formSchema [] d = [] ->
  net request = Resolves r ->
  ok r = true ->
  submit user net w
  = (Returned tt,
     {| form_values :=
          {| type := js ""; role := js ""; level := js "";
             specialtySkills := []; amount := 5 |};
        form_errors := [];
        skillInput := skillInput w;
        trace := trace w ++ [CallFetch request; CallRouter refresh] |})
  /\ existsb navigates (skipn (List.length (trace w)) (trace w')) = false.
Proof.
  intros d request w' Hvalid Hnet Hok.
  assert (E : submit user net w
              = (Returned tt,
                 {| form_values := defaultValues;
                    form_errors := [];
                    skillInput := skillInput w;
                    trace := trace w
                             ++ [CallFetch request; CallRouter refresh] |})).
  { rewrite submit_valid by exact Hvalid.
    unfold after_submit. cbn zeta. fold d. fold request.
    rewrite Hnet, Hok. reflexivity. }
  split; [exact E|].
  subst w'. rewrite E. cbn [snd trace].
  rewrite skipn_app, skipn_all, Nat.sub_diag. reflexivity.
Qed.

Lemma successful_submission_resets_draft_witness :
  submit scenario_A_user always_200 scenario_A_world
  = (Returned tt,
     {| form_values :=
          {| type := js ""; role := js ""; level := js "";
             specialtySkills := []; amount := 5 |};
        form_errors := [];
        skillInput := js "";
        trace := [CallFetch (generate_request scenario_A_user scenario_A_draft);
                  CallRouter refresh] |}).
Proof.
  apply (proj1 (successful_submission_resets_draft scenario_A_user always_200
                  scenario_A_world (mkResponse 200)
                  eq_refl eq_refl eq_refl)).
Defined.

(** C10. With no current user, [userid] is [undefined] and [JSON.stringify]
    writes no member for it: the body is the JSON object of the five members
    of the draft, none of which has the key [userid]. With a user, the same
    five members are followed by [userid] and the quoted identifier, so the
    other members do not depend on the user. *)
Theorem absent_user_drops_userid (values : Draft) (u : User) :
  members (payload_properties None values) = draft_members values
  /\ ~ In (js "userid") (map fst (members (payload_properties None values)))
  /\ body (generate_request None values)
     = Some ([123]
             ++ JsString.join [44] (map member_text (draft_members values))
             ++ [125])%N
  /\ members (payload_properties (Some u) values)
     = draft_members values ++ [(js "userid", QuoteJSONString (id u))]
  /\ body (generate_request (Some u) values)
     = Some ([123]
             ++ JsString.join [44]
                  (map member_text
                     (draft_members values
                      ++ [(js "userid", QuoteJSONString (id u))]))
             ++ [125])%N.
Proof.
  split; [|split; [|split; [|split]]].
  - rewrite payload_members, app_nil_r. reflexivity.
  - rewrite payload_members, app_nil_r. cbn.
    intros [H|[H|[H|[H|[H|[]]]]]]; discriminate H.
  - cbn [generate_request body]. unfold payload.
    rewrite stringify_object, payload_members, app_nil_r. reflexivity.
  - rewrite payload_members. reflexivity.
  - cbn [generate_request body]. unfold payload.
    rewrite stringify_object, payload_members. reflexivity.
Qed.

Example scenario_A_body_without_user :
  body (generate_request None scenario_A_draft)
  = Some (JsString.json_text
      "{'type':'technical','role':'Frontend Engineer','level':'mid','specialtySkills':'React, CSS','amount':5}").
Proof. vm_compute. reflexivity. Qed.

(* ------------------------------------------------------------------------- *)
(** ** The invariant of the draft                                             *)
(* ------------------------------------------------------------------------- *)

Section Invariant.

Lemma default_invariant : draft_invariant defaultValues.
Proof.
  repeat split.
  - intros [].
  - constructor.
  - right. left. reflexivity.
Qed.

(** The invariant looks at the skills and at the amount only. *)
Lemma invariant_same_skills_amount (d d' : Draft) :
  specialtySkills d' = specialtySkills d -> amount d' = amount d ->
  draft_invariant d -> draft_invariant d'.
Proof. unfold draft_invariant. intros -> ->. exact (fun H => H). Qed.

(** What the select of the amount stores for each of its items: the number
    the item was rendered from. *)
Lemma amount_option_roundtrip (opt : Z) :
  In opt amount_options ->
  JsString.Number_of_string (JsString.String_of_number opt) = Some opt.
Proof.
  intros [<-|[<-|[<-|[<-|[<-|[]]]]]]; reflexivity.
Qed.

Lemma addSkill_invariant (w : World) :
  draft_invariant (form_values w) ->
  draft_invariant (form_values (snd (handleAddSkill w))).
Proof.
  intros (Hne & Hnd & Ham). rewrite handleAddSkill_unfold. cbn zeta.
  destruct (JsString.truthy (JsString.trim (skillInput w))) eqn:Et;
    [|repeat split; assumption].
  destruct (JsString.includes (specialtySkills (form_values w))
              (JsString.trim (skillInput w))) eqn:Ei;
    [repeat split; assumption|].
  apply truthy_nonempty in Et. apply includes_not_In in Ei.
  cbn [andb negb snd form_values with_skills]. unfold draft_invariant.
  cbn [specialtySkills amount]. repeat split.
  - intros H. apply in_app_or in H as [H|[H|[]]].
    + exact (Hne H).
    + apply Et. exact H.
  - apply NoDup_app; [exact Hnd | repeat constructor; intros [] |].
    intros s Hs [<-|[]]. exact (Ei Hs).
  - exact Ham.
Qed.

Lemma removeSkill_invariant (skill : jsstring) (w : World) :
  draft_invariant (form_values w) ->
  draft_invariant (form_values (snd (handleRemoveSkill skill w))).
Proof.
  intros (Hne & Hnd & Ham). rewrite handleRemoveSkill_unfold.
  cbn [snd form_values with_skills]. unfold draft_invariant.
  cbn [specialtySkills amount]. repeat split.
  - intros H. apply filter_In in H as [H _]. exact (Hne H).
  - apply NoDup_filter. exact Hnd.
  - exact Ham.
Qed.

Lemma submit_values (user : option User) (net : Network) (w : World) :
  form_values (snd (submit user net w)) = form_values w
  \/ form_values (snd (submit user net w)) = defaultValues.
Proof.
  destruct (formSchema [] (form_values w)) as [|i r] eqn:E.
  - rewrite submit_valid by exact E. unfold after_submit. cbn zeta.
    destruct (net _) as [resp|e]; [destruct (ok resp)|]; cbn; auto.
  - rewrite submit_invalid by (rewrite E; discriminate). cbn. auto.
Qed.

Lemma perform_invariant (a : Action) (w : World) :
  offered a w ->
  draft_invariant (form_values w) ->
  draft_invariant (form_values (snd (perform a w))).
Proof.
  intros Hoff Hinv. destruct a as [v|v|v|opt|v| |skill|user net]; cbn [perform].
  - revert Hinv. apply invariant_same_skills_amount; reflexivity.
  - revert Hinv. apply invariant_same_skills_amount; reflexivity.
  - revert Hinv. apply invariant_same_skills_amount; reflexivity.
  - unfold amount_onValueChange.
    rewrite (amount_option_roundtrip opt Hoff).
    destruct Hinv as (Hne & Hnd & _). repeat split; assumption.
  - exact Hinv.
  - apply addSkill_invariant. exact Hinv.
  - apply removeSkill_invariant. exact Hinv.
  - destruct (submit_values user net w) as [-> | ->];
      [exact Hinv | exact default_invariant].
Qed.

End Invariant.

(** C9. In every world the user can reach from the mounted form by selecting
    a type, a level or an amount, editing the role or the staging text,
    adding or removing a skill, or submitting (whatever the user and the
    network answer), the skill list holds no empty string and no string
    twice, and the amount is one of 3, 5, 10, 15 and 20. *)
Theorem reachable_draft_invariant (w : World) :
  reachable w ->
  ~ In (js "") (specialtySkills (form_values w))
  /\ NoDup (specialtySkills (form_values w))
  /\ In (amount (form_values w)) [3; 5; 10; 15; 20].
Proof.
  intros H. change (draft_invariant (form_values w)).
  induction H as [|w a Hr IH Hoff].
  - exact default_invariant.
  - apply perform_invariant; assumption.
Qed.

Lemma after_some_actions_reachable : reachable after_some_actions.
Proof.
  unfold after_some_actions.
  apply reachable_step.
  - apply reachable_step.
    + apply reachable_step; [apply reachable_mount | exact I].
    + exact I.
  - cbn. auto.
Qed.

Lemma reachable_draft_invariant_witness :
  specialtySkills (form_values after_some_actions) = [js "React"]
  /\ amount (form_values after_some_actions) = 10
  /\ NoDup (specialtySkills (form_values after_some_actions)).
Proof.
  split; [reflexivity | split; [reflexivity|]].
  exact (proj1 (proj2 (reachable_draft_invariant after_some_actions
                         after_some_actions_reachable))).
Defined.

(* ------------------------------------------------------------------------- *)
(** ** More on trimming                                                       *)
(* ------------------------------------------------------------------------- *)

Section Trimming.

Lemma trimStart_split (s : jsstring) :
  exists ws, s = ws ++ JsString.trimStart s /\ JsString.blank ws = true.
Proof.
  induction s as [|c r (ws & E & B)]; [exists []; split; reflexivity|].
  cbn [JsString.trimStart].
  destruct (JsString.is_white_space c) eqn:Ec.
  - exists (c :: ws). split.
    + cbn [app]. f_equal. exact E.
    + cbn [JsString.blank forallb]. rewrite Ec. exact B.
  - exists []. split; reflexivity.
Qed.

Lemma trimStart_clean (s : jsstring) :
  starts_clean (JsString.trimStart s) = true.
Proof.
  induction s as [|c r IH]; [reflexivity|].
  cbn [JsString.trimStart].
  destruct (JsString.is_white_space c) eqn:Ec; [exact IH|].
  cbn [starts_clean]. rewrite Ec. reflexivity.
Qed.

Lemma trimStart_of_clean (s : jsstring) :
  starts_clean s = true -> JsString.trimStart s = s.
Proof.
  destruct s as [|c r]; [reflexivity|].
  cbn [starts_clean JsString.trimStart].
  destruct (JsString.is_white_space c); [discriminate | reflexivity].
Qed.

Lemma blank_app (a b : jsstring) :
  JsString.blank (a ++ b) = JsString.blank a && JsString.blank b.
Proof. apply forallb_app. Qed.

Lemma blank_rev (s : jsstring) : JsString.blank (rev s) = JsString.blank s.
Proof.
  induction s as [|c r IH]; [reflexivity|].
  cbn [rev]. rewrite blank_app, IH. cbn [JsString.blank forallb].
  rewrite andb_true_r. apply andb_comm.
Qed.

Lemma blank_clean_nil (s : jsstring) :
  JsString.blank s = true -> starts_clean s = true -> s = [].
Proof.
  destruct s as [|c r]; [reflexivity|].
  cbn [JsString.blank forallb starts_clean].
  destruct (JsString.is_white_space c); discriminate.
Qed.

Lemma trimStart_nil_blank (s : jsstring) :
  JsString.trimStart s = [] -> JsString.blank s = true.
Proof.
  intros H. destruct (trimStart_split s) as (ws & E & B).
  rewrite H, app_nil_r in E. rewrite E. exact B.
Qed.

(** Only white space trims to the empty string. *)
Lemma trim_nil_blank (s : jsstring) :
  JsString.trim s = [] -> JsString.blank s = true.
Proof.
  unfold JsString.trim, JsString.trimEnd. intros H.
  assert (H' : JsString.trimStart (rev (JsString.trimStart s)) = []).
  { rewrite <- (rev_involutive (JsString.trimStart _)), H. reflexivity. }
  apply trimStart_nil_blank in H'. rewrite blank_rev in H'.
  apply trimStart_nil_blank.
  apply blank_clean_nil; [exact H' | apply trimStart_clean].
Qed.

(** What is trimmed has no white space at either end. *)
Lemma trim_clean (s : jsstring) :
  starts_clean (JsString.trim s) = true
  /\ starts_clean (rev (JsString.trim s)) = true.
Proof.
  unfold JsString.trim, JsString.trimEnd.
  set (t := JsString.trimStart s).
  split.
  - destruct (trimStart_split (rev t)) as (ws & E & _).
    apply (f_equal (@rev _)) in E. rewrite rev_involutive, rev_app_distr in E.
    destruct (rev (JsString.trimStart (rev t))) as [|c u] eqn:Eu;
      [reflexivity|].
    pose proof (trimStart_clean s) as Ht. fold t in Ht.
    rewrite E in Ht. exact Ht.
  - rewrite rev_involutive. apply trimStart_clean.
Qed.

Lemma trim_of_clean (s : jsstring) :
  starts_clean s = true -> starts_clean (rev s) = true ->
  JsString.trim s = s.
Proof.
  intros Hs He. unfold JsString.trim, JsString.trimEnd.
  rewrite (trimStart_of_clean s Hs), (trimStart_of_clean (rev s) He).
  apply rev_involutive.
Qed.

Lemma trim_idempotent (s : jsstring) :
  JsString.trim (JsString.trim s) = JsString.trim s.
Proof.
  destruct (trim_clean s) as [Hs He]. apply trim_of_clean; assumption.
Qed.

End Trimming.

(* ------------------------------------------------------------------------- *)
(** ** More on the skill-list editor                                          *)
(* ------------------------------------------------------------------------- *)

(** X1. The Add button is disabled exactly when the staging text is made of
    white space only (the empty text included), and whenever it is disabled
    [handleAddSkill], which Enter still reaches, changes nothing. *)
Theorem add_button_disabled_iff_blank (w : World) :
  add_disabled w = JsString.blank (skillInput w)
  /\ (add_disabled w = true -> handleAddSkill w = (Returned tt, w)).
Proof.
  assert (E : add_disabled w = JsString.blank (skillInput w)).
  { unfold add_disabled.
    destruct (JsString.blank (skillInput w)) eqn:B.
    - rewrite (trim_blank _ B). reflexivity.
    - destruct (JsString.trim (skillInput w)) eqn:T; [|reflexivity].
      apply trim_nil_blank in T. congruence. }
  split; [exact E|].
  rewrite E. intros B. apply handleAddSkill_noop. left.
  apply trim_blank. exact B.
Qed.

Lemma add_button_disabled_iff_blank_witness :
  handleAddSkill blank_world = (Returned tt, blank_world).
Proof.
  apply (proj2 (add_button_disabled_iff_blank blank_world)). reflexivity.
Defined.

Lemma remove_last_new (skill : jsstring) (l : list jsstring) :
  ~ In skill l -> remove jsstring_eq_dec skill (l ++ [skill]) = l.
Proof.
  intros H. rewrite remove_app, (notin_remove jsstring_eq_dec l skill H).
  cbn [remove]. destruct (jsstring_eq_dec skill skill); [|congruence].
  apply app_nil_r.
Qed.

(** X2. Adding a skill and removing it again gives the committed list back:
    when the trimmed text is not empty and not yet in the list, removing it
    right after [handleAddSkill] committed it restores the values of the
    form. The staging text stays cleared. *)
Theorem add_then_remove_restores (w : World) (text : jsstring) :
  let skill := JsString.trim text in
  let w1 := snd (handleAddSkill (snd (setSkillInput text w))) in
  skill <> [] ->
  ~ In skill (specialtySkills (form_values w)) ->
  handleRemoveSkill skill w1
  = (Returned tt,
     {| form_values := with_skills (form_values w)
                         (specialtySkills (form_values w));
        form_errors := form_errors w;
        skillInput := js "";
        trace := trace w |}).
Proof.
  intros skill w1 Hne Hni. subst w1.
  rewrite (handleAddSkill_commits (snd (setSkillInput text w)) Hne Hni).
  cbn [snd]. rewrite handleRemoveSkill_unfold, filter_differs_remove.
  cbn [form_values setSkillInput snd with_skills specialtySkills
       form_errors skillInput trace type role level amount].
  unfold with_skills. cbn [type role level amount specialtySkills].
  do 3 f_equal. exact (remove_last_new skill _ Hni).
Qed.

Lemma add_then_remove_restores_witness :
  specialtySkills
    (form_values
       (snd (handleRemoveSkill (js "Go")
               (snd (handleAddSkill
                       (snd (setSkillInput (js " Go ") two_skills_world)))))))
  = [js "React"; js "CSS"].
Proof.
  refine (f_equal (fun r => specialtySkills (form_values (snd r)))
            (add_then_remove_restores two_skills_world (js " Go ") _ _)).
  - vm_compute. discriminate.
  - vm_compute. intros [H|[H|[]]]; discriminate H.
Defined.

(** X3. Removing is idempotent and the order of two removals does not
    matter: removing a skill that was just removed changes nothing, and
    removing [a] then [b] ends in the same world as removing [b] then [a]. *)
Theorem removeSkill_idempotent_commutes (w : World) (a b : jsstring) :
  handleRemoveSkill a (snd (handleRemoveSkill a w))
  = (Returned tt, snd (handleRemoveSkill a w))
  /\ handleRemoveSkill b (snd (handleRemoveSkill a w))
     = handleRemoveSkill a (snd (handleRemoveSkill b w)).
Proof.
  rewrite !handleRemoveSkill_unfold, !filter_differs_remove.
  cbn [snd form_values with_skills specialtySkills form_errors skillInput
       trace type role level amount].
  rewrite ?filter_differs_remove.
  rewrite remove_remove_eq, (remove_remove_comm jsstring_eq_dec _ a b).
  split; reflexivity.
Qed.

Lemma remove_at_index (l : list jsstring) (i : nat) (s : jsstring) :
  NoDup l -> nth_error l i = Some s ->
  remove jsstring_eq_dec s l = firstn i l ++ skipn (S i) l.
Proof.
  intros Hnd. revert i. induction Hnd as [|x l Hx Hnd IH]; intros i Hi.
  - destruct i; discriminate Hi.
  - destruct i as [|i]; cbn [nth_error] in Hi.
    + injection Hi as ->. cbn [remove firstn skipn app].
      destruct (jsstring_eq_dec s s); [|congruence].
      apply notin_remove. exact Hx.
    + cbn [remove firstn skipn app].
      destruct (jsstring_eq_dec s x) as [->|_].
      * exfalso. apply Hx. eapply nth_error_In. exact Hi.
      * f_equal. apply IH. exact Hi.
Qed.

(** X4. When no skill is committed twice (which holds in every world the
    user can reach), the button of the badge at index [i] removes that badge
    and no other: the new list is the old one without position [i]. *)
Theorem badge_click_removes_that_badge (w : World) (i : nat) (s : jsstring) :
  let skills := specialtySkills (form_values w) in
  NoDup skills ->
  nth_error skills i = Some s ->
  badge_onClick i w
  = (Returned tt,
     {| form_values :=
          with_skills (form_values w) (firstn i skills ++ skipn (S i) skills);
        form_errors := form_errors w;
        skillInput := skillInput w;
        trace := trace w |}).
Proof.
  intros skills Hnd Hi.
  unfold badge_onClick, bind, getValues_specialtySkills. fold skills.
  rewrite Hi, handleRemoveSkill_unfold, filter_differs_remove. fold skills.
  rewrite (remove_at_index skills i s Hnd Hi). reflexivity.
Qed.

Lemma badge_click_removes_that_badge_witness :
  specialtySkills (form_values (snd (badge_onClick 0 two_skills_world)))
  = [js "CSS"].
Proof.
  rewrite (badge_click_removes_that_badge two_skills_world 0 (js "React")).
  - reflexivity.
  - repeat constructor; vm_compute; intros H;
      repeat (destruct H as [H|H]; [discriminate H|]); exact H.
  - reflexivity.
Defined.

(** X5. A key pressed in the staging input never reaches the outside and
    never touches the form's errors. For Enter (the key named exactly so)
    the event leaves the handler with its default action prevented, and the
    world is the one [handleAddSkill] gives; for any other key the event and
    the world are left as they were, the default action not prevented by
    the handler. *)
Theorem enter_adds_skill_only (e : KeyboardEvent) (w : World) :
  trace (snd (onKeyDown e w)) = trace w
  /\ form_errors (snd (onKeyDown e w)) = form_errors w
  /\ (key e = js "Enter" ->
      onKeyDown e w
      = (Returned {| key := js "Enter"; defaultPrevented := true |},
         snd (handleAddSkill w)))
  /\ (key e <> js "Enter" -> onKeyDown e w = (Returned e, w)).
Proof.
  unfold onKeyDown.
  destruct (eqb_spec (key e) (js "Enter")) as [E|E].
  - unfold bind, preventDefault. rewrite E, handleAddSkill_unfold. cbn zeta.
    destruct (JsString.truthy (JsString.trim (skillInput w))
              && negb (JsString.includes (specialtySkills (form_values w))
                         (JsString.trim (skillInput w))));
      repeat split; try reflexivity; intros H; congruence.
  - repeat split; try reflexivity. intros H. congruence.
Qed.

Lemma enter_adds_skill_only_witness :
  fst (onKeyDown enter_key react_world)
  = Returned {| key := js "Enter"; defaultPrevented := true |}
  /\ specialtySkills (form_values (snd (onKeyDown enter_key react_world)))
     = [js "React"].
Proof.
  rewrite (proj1 (proj2 (proj2 (enter_adds_skill_only enter_key react_world)))
             eq_refl).
  split; reflexivity.
Defined.

(* ------------------------------------------------------------------------- *)
(** ** More on validation                                                     *)
(* ------------------------------------------------------------------------- *)

Section SchemaFacts.

Lemma string_min_nil_iff (msg : Message) (p : list PathSegment) (s : jsstring) :
  string_min 1 msg p s = [] <-> s <> [].
Proof.
  split.
  - intros H ->. discriminate H.
  - apply string_min_nonempty.
Qed.

Lemma array_elements_nil_iff (p : list PathSegment) (k : nat)
      (l : list jsstring) :
  array_elements (string_min 1 LibraryDefault) p k l = []
  <-> (forall s, In s l -> s <> []).
Proof.
  revert k. induction l as [|x l IH]; intros k; cbn [array_elements].
  - split; [intros _ s [] | reflexivity].
  - split.
    + intros H. apply app_eq_nil in H as [Hx Hl].
      intros s [<-|Hs].
      * apply (string_min_nil_iff LibraryDefault (p ++ [Index k])). exact Hx.
      * apply (proj1 (IH (S k)) Hl). exact Hs.
    + intros H.
      rewrite (proj2 (string_min_nil_iff LibraryDefault (p ++ [Index k]) x))
        by (apply H; left; reflexivity).
      apply (IH (S k)). intros s Hs. apply H. right. exact Hs.
Qed.

Lemma array_elements_In (p : list PathSegment) (k i : nat)
      (l : list jsstring) :
  nth_error l i = Some [] ->
  In (mkIssue (p ++ [Index (k + i)]) (too_small_string 1) LibraryDefault)
     (array_elements (string_min 1 LibraryDefault) p k l).
Proof.
  revert k i. induction l as [|x l IH]; intros k i Hi.
  - destruct i; discriminate Hi.
  - cbn [array_elements]. apply in_or_app. destruct i as [|i].
    + injection Hi as ->. left. rewrite Nat.add_0_r. left. reflexivity.
    + right. replace (k + S i)%nat with (S k + i)%nat by lia.
      apply IH. exact Hi.
Qed.

Lemma array_min_nil_iff (p : list PathSegment) (l : list jsstring) :
  array_min (string_min 1 LibraryDefault) 1 skills_message p l = []
  <-> l <> [] /\ (forall s, In s l -> s <> []).
Proof.
  unfold array_min. destruct l as [|x l].
  - split; [discriminate | intros [H _]; congruence].
  - replace (Z.of_nat (List.length (x :: l)) <? 1) with false
      by (symmetry; apply Z.ltb_ge; cbn [List.length]; lia).
    cbn [app]. rewrite array_elements_nil_iff.
    split; [intros H; split; [discriminate | exact H] | intros [_ H]; exact H].
Qed.

Lemma union_of_literals_nil_iff (p : list PathSegment) (v : Z) :
  union_of_literals amount_literals p v = [] <-> In v [3; 5; 10; 15; 20].
Proof.
  unfold union_of_literals.
  destruct (existsb (Z.eqb v) amount_literals) eqn:E.
  - split; [intros _ | reflexivity].
    apply existsb_exists in E as (x & Hx & Hv).
    apply Z.eqb_eq in Hv. subst x. exact Hx.
  - split; [discriminate|]. intros H. exfalso.
    assert (E' : existsb (Z.eqb v) amount_literals = true).
    { apply existsb_exists. exists v. split; [exact H | apply Z.eqb_refl]. }
    congruence.
Qed.

Lemma schema_accepts_cond (d : Draft) :
  formSchema [] d = [] ->
  type d <> [] /\ role d <> [] /\ level d <> []
  /\ specialtySkills d <> []
  /\ (forall s, In s (specialtySkills d) -> s <> [])
  /\ In (amount d) [3; 5; 10; 15; 20].
Proof.
  unfold formSchema. intros H.
  apply app_eq_nil in H as [Ht H]. apply app_eq_nil in H as [Hr H].
  apply app_eq_nil in H as [Hl H]. apply app_eq_nil in H as [Hs Ha].
  apply string_min_nil_iff in Ht, Hr, Hl.
  apply array_min_nil_iff in Hs as [Hs He].
  apply union_of_literals_nil_iff in Ha.
  repeat split; assumption.
Qed.

Lemma schema_accepts_of_cond (d : Draft) :
  type d <> [] /\ role d <> [] /\ level d <> []
  /\ specialtySkills d <> []
  /\ (forall s, In s (specialtySkills d) -> s <> [])
  /\ In (amount d) [3; 5; 10; 15; 20] ->
  formSchema [] d = [].
Proof.
  unfold formSchema. intros (Ht & Hr & Hl & Hs & He & Ha).
  rewrite (proj2 (string_min_nil_iff _ _ _) Ht),
    (proj2 (string_min_nil_iff _ _ _) Hr),
    (proj2 (string_min_nil_iff _ _ _) Hl),
    (proj2 (array_min_nil_iff _ _) (conj Hs He)),
    (proj2 (union_of_literals_nil_iff _ _) Ha).
  reflexivity.
Qed.

End SchemaFacts.

(** X6. The drafts the schema accepts are exactly those whose [type], [role]
    and [level] are not empty, whose skill list is not empty and holds no
    empty string, and whose amount is 3, 5, 10, 15 or 20. *)
Theorem schema_accepts_iff (d : Draft) :
  formSchema [] d = []
  <-> (type d <> [] /\ role d <> [] /\ level d <> []
       /\ specialtySkills d <> []
       /\ (forall s, In s (specialtySkills d) -> s <> [])
       /\ In (amount d) [3; 5; 10; 15; 20]).
Proof.
  split; [apply schema_accepts_cond | apply schema_accepts_of_cond].
Qed.

Lemma schema_accepts_iff_witness : formSchema [] blank_role_draft = [].
Proof.
  apply (proj2 (schema_accepts_iff blank_role_draft)).
  repeat split; try (vm_compute; discriminate).
  - vm_compute. intros s [<-|[<-|[]]]; discriminate.
  - vm_compute. auto.
Defined.

(** X7. An amount other than 3, 5, 10, 15 and 20 is refused: the schema
    reports an issue at [amount], so the resolver fails, [onSubmit] is not
    called, and the submission returns with the values of the form, the
    staging text and the trace as they were: no call is made to the outside.
    (Which of the union's issues the resolver keeps as the error of the
    field is not stated here.) *)
Theorem invalid_amount_blocks_submit
        (user : option User) (net : Network) (w : World) :
  let d := form_values w in
  let w' := snd (submit user net w) in
  ~ In (amount d) [3; 5; 10; 15; 20] ->
  In amount_invalid (formSchema [] d)
  /\ fst (submit user net w) = Returned tt
  /\ form_values w' = d
  /\ skillInput w' = skillInput w
  /\ trace w' = trace w.
Proof.
  intros d w' H.
  assert (Hin : In amount_invalid (formSchema [] d)).
  { unfold formSchema. do 4 (apply in_or_app; right).
    unfold union_of_literals.
    destruct (existsb (Z.eqb (amount d)) amount_literals) eqn:E.
    - exfalso. apply H. apply existsb_exists in E as (x & Hx & Hv).
      apply Z.eqb_eq in Hv. subst x. exact Hx.
    - left. reflexivity. }
  split; [exact Hin|].
  subst w'. rewrite (submit_invalid user net w (In_nonempty _ _ Hin)).
  repeat split.
Qed.

Lemma invalid_amount_blocks_submit_witness :
  trace (snd (submit None always_200 amount_seven_world)) = []
  /\ amount (form_values (snd (submit None always_200 amount_seven_world)))
     = 7.
Proof.
  destruct (invalid_amount_blocks_submit None always_200 amount_seven_world)
    as (_ & _ & Hv & _ & Ht).
  - vm_compute. intros H.
    repeat (destruct H as [H|H]; [discriminate H|]). exact H.
  - rewrite Ht, Hv. split; reflexivity.
Defined.

(** X8. An empty string at index [i] of the skill list is refused: the
    resolver reports an issue at the path of that element, and the
    submission is blocked with no call to the outside. *)
Theorem empty_skill_element_blocks_submit
        (user : option User) (net : Network) (w : World) (i : nat) :
  let d := form_values w in
  nth_error (specialtySkills d) i = Some [] ->
  In (skill_element_empty i) (formSchema [] d)
  /\ submit user net w
     = (Returned tt,
        {| form_values := d; form_errors := formSchema [] d;
           skillInput := skillInput w; trace := trace w |}).
Proof.
  intros d H.
  assert (Hin : In (skill_element_empty i) (formSchema [] d)).
  { unfold formSchema. do 3 (apply in_or_app; right). apply in_or_app. left.
    unfold array_min. apply in_or_app. right.
    exact (array_elements_In ([] ++ [Key (js "specialtySkills")]) 0 i _ H). }
  split; [exact Hin|].
  apply submit_invalid. exact (In_nonempty _ _ Hin).
Qed.

Lemma empty_skill_element_blocks_submit_witness :
  trace (snd (submit None always_200 empty_element_world)) = []
  /\ In (skill_element_empty 1)
        (form_errors (snd (submit None always_200 empty_element_world))).
Proof.
  destruct (empty_skill_element_blocks_submit None always_200
              empty_element_world 1 eq_refl) as [Hin Hsubmit].
  rewrite Hsubmit. split; [reflexivity | exact Hin].
Defined.

(* ------------------------------------------------------------------------- *)
(** ** What every action does to the world                                    *)
(* ------------------------------------------------------------------------- *)

Section Actions.

(** The invariant of the draft, in every reachable world. *)
Lemma reachable_invariant (w : World) :
  reachable w -> draft_invariant (form_values w).
Proof.
  induction 1 as [|w a Hr IH Hoff];
    [exact default_invariant | apply perform_invariant; assumption].
Qed.

(** The outcome of a submission, as a case analysis. *)
Lemma submit_cases (user : option User) (net : Network) (w : World) :
  let d := form_values w in
  let request := generate_request user d in
  (formSchema [] d <> []
   /\ submit user net w
      = (Returned tt,
         {| form_values := d; form_errors := formSchema [] d;
            skillInput := skillInput w; trace := trace w |}))
  \/ (formSchema [] d = []
      /\ submit user net w
         = (Returned tt,
            {| form_values := defaultValues; form_errors := [];
               skillInput := skillInput w;
               trace := trace w ++ [CallFetch request; CallRouter refresh] |}))
  \/ (formSchema [] d = []
      /\ exists e,
        submit user net w
        = (Returned tt,
           {| form_values := d; form_errors := [];
              skillInput := skillInput w;
              trace := trace w ++ [CallFetch request; CallConsoleError e] |})).
Proof.
  intros d request.
  destruct (formSchema [] d) as [|i r] eqn:E.
  - right. rewrite submit_valid by exact E.
    unfold after_submit. cbn zeta. fold d. fold request.
    destruct (net request) as [resp|e]; [destruct (ok resp)|].
    + left. split; reflexivity.
    + right. split; [reflexivity|]. eexists. reflexivity.
    + right. split; [reflexivity|]. eexists. reflexivity.
  - left. split; [discriminate|].
    rewrite submit_invalid by (fold d; rewrite E; discriminate).
    fold d. rewrite E. reflexivity.
Qed.

(** Only a submission adds to the trace. *)
Lemma perform_trace (a : Action) (w : World) :
  (forall user net, a <> Submit user net) ->
  trace (snd (perform a w)) = trace w.
Proof.
  intros Hns.
  destruct a as [v|v|v|opt|v| |skill|user net]; cbn [perform];
    try reflexivity.
  - unfold amount_onValueChange.
    destruct (JsString.Number_of_string _); reflexivity.
  - rewrite handleAddSkill_unfold. cbn zeta.
    destruct (_ && _); reflexivity.
  - exfalso. exact (Hns user net eq_refl).
Qed.

Lemma filled_in_reachable : reachable filled_in.
Proof.
  unfold filled_in.
  repeat (apply reachable_step; [|cbn; auto]).
  apply reachable_mount.
Qed.

Lemma filled_in_and_submitted_reachable : reachable filled_in_and_submitted.
Proof.
  unfold filled_in_and_submitted.
  apply reachable_step; [exact filled_in_reachable | exact I].
Qed.


End Actions.

(* ------------------------------------------------------------------------- *)
(** ** More on the reachable worlds                                           *)
(* ------------------------------------------------------------------------- *)

(** X9. No handler of the form lets an exception escape: every action, in
    every world and whatever the network does, returns normally. *)
Theorem handlers_never_throw (a : Action) (w : World) :
  fst (perform a w) = Returned tt.
Proof.
  destruct a as [v|v|v|opt|v| |skill|user net]; cbn [perform];
    try reflexivity.
  - unfold amount_onValueChange.
    destruct (JsString.Number_of_string _); reflexivity.
  - rewrite handleAddSkill_unfold. cbn zeta. destruct (_ && _); reflexivity.
  - destruct (submit_cases user net w) as [[_ E]|[[_ E]|[_ [e E]]]];
      rewrite E; reflexivity.
Qed.



(** X11. In every reachable world, every request in the trace is the request
    of a draft the schema accepts: POST to the generation endpoint with the
    JSON body of that draft. Nothing is ever sent for a draft that fails
    validation. *)
Theorem reachable_requests_validated (w : World) :
  reachable w -> Forall validated_request (trace w).
Proof.
  induction 1 as [|w a Hr IH Hoff]; [constructor|].
  destruct a as [v|v|v|opt|v| |skill|user net];
    try (rewrite perform_trace by discriminate; exact IH).
  cbn [perform].
  destruct (submit_cases user net w) as [[_ E]|[[Hv E]|[Hv [e E]]]];
    rewrite E; cbn [snd trace].
  - exact IH.
  - apply Forall_app. split; [exact IH|].
    repeat constructor. exists user, (form_values w). split; [exact Hv|].
    reflexivity.
  - apply Forall_app. split; [exact IH|].
    repeat constructor. exists user, (form_values w). split; [exact Hv|].
    reflexivity.
Qed.

Lemma reachable_requests_validated_witness :
  Forall validated_request
    [CallFetch (generate_request scenario_A_user (form_values filled_in));
     CallRouter refresh].
Proof.
  exact (reachable_requests_validated filled_in_and_submitted
           filled_in_and_submitted_reachable).
Defined.

(** X12. In every reachable world each committed skill is its own trimmed
    form: no skill starts or ends with white space. *)
Theorem reachable_skills_trimmed (w : World) :
  reachable w ->
  forall s, In s (specialtySkills (form_values w)) -> JsString.trim s = s.
Proof.
  induction 1 as [|w a Hr IH Hoff]; [intros s []|].
  destruct a as [v|v|v|opt|v| |skill|user net]; cbn [perform];
    try exact IH.
  - unfold amount_onValueChange.
    destruct (JsString.Number_of_string _); exact IH.
  - rewrite handleAddSkill_unfold. cbn zeta.
    destruct (_ && _); [|exact IH].
    cbn [snd form_values with_skills specialtySkills].
    intros s Hs. apply in_app_or in Hs as [Hs|[<-|[]]].
    + apply IH. exact Hs.
    + apply trim_idempotent.
  - rewrite handleRemoveSkill_unfold.
    cbn [snd form_values with_skills specialtySkills].
    intros s Hs. apply filter_In in Hs as [Hs _]. apply IH. exact Hs.
  - destruct (submit_values user net w) as [-> | ->];
      [exact IH | intros s []].
Qed.

Lemma reachable_skills_trimmed_witness :
  JsString.trim (js "React") = js "React".
Proof.
  apply (reachable_skills_trimmed after_some_actions).
  - unfold after_some_actions.
    apply reachable_step.
    + apply reachable_step.
      * apply reachable_step; [apply reachable_mount | exact I].
      * exact I.
    + cbn. auto.
  - left. reflexivity.
Defined.

(** X13. In every reachable world the three selects hold a value they can
    show: [type] and [level] are empty (the placeholder) or one of the
    items of their select, and the value of the amount select,
    [String(amount)], is the value of one of its items. *)
Theorem reachable_select_values (w : World) :
  reachable w ->
  (type (form_values w) = [] \/ In (type (form_values w)) type_options)
  /\ (level (form_values w) = [] \/ In (level (form_values w)) level_options)
  /\ In (amount_select_value w) amount_item_values.
Proof.
  intros Hr. split; [|split].
  - induction Hr as [|w a Hr IH Hoff]; [left; reflexivity|].
    destruct a as [v|v|v|opt|v| |skill|user net]; cbn [perform];
      try exact IH.
    + right. exact Hoff.
    + unfold amount_onValueChange.
      destruct (JsString.Number_of_string _); exact IH.
    + rewrite handleAddSkill_unfold. cbn zeta. destruct (_ && _); exact IH.
    + destruct (submit_values user net w) as [-> | ->];
        [exact IH | left; reflexivity].
  - induction Hr as [|w a Hr IH Hoff]; [left; reflexivity|].
    destruct a as [v|v|v|opt|v| |skill|user net]; cbn [perform];
      try exact IH.
    + right. exact Hoff.
    + unfold amount_onValueChange.
      destruct (JsString.Number_of_string _); exact IH.
    + rewrite handleAddSkill_unfold. cbn zeta. destruct (_ && _); exact IH.
    + destruct (submit_values user net w) as [-> | ->];
        [exact IH | left; reflexivity].
  - destruct (reachable_invariant w Hr) as (_ & _ & Ha).
    unfold amount_select_value, amount_item_values.
    apply in_map. exact Ha.
Qed.

Lemma reachable_select_values_witness :
  In (amount_select_value after_some_actions) amount_item_values.
Proof.
  apply (reachable_select_values after_some_actions).
  unfold after_some_actions.
  apply reachable_step.
  - apply reachable_step.
    + apply reachable_step; [apply reachable_mount | exact I].
    + exact I.
  - cbn. auto.
Defined.

(** X14. Through the form, the rules of the schema on the amount and on the
    elements of the skill list never fire: in a reachable world every issue
    of the schema is one of the three required-field issues or the
    minimum-count issue of the skills, and the draft is accepted exactly when
    [type], [role] and [level] are not empty and a skill is committed. *)
Theorem reachable_issues (w : World) :
  reachable w ->
  let d := form_values w in
  (forall i, In i (formSchema [] d) ->
             In i [type_required; role_required; level_required;
                   skills_minimum])
  /\ (formSchema [] d = []
      <-> type d <> [] /\ role d <> [] /\ level d <> []
          /\ specialtySkills d <> []).
Proof.
  intros Hr d. destruct (reachable_invariant w Hr) as (Hne & _ & Ha).
  fold d in Hne, Ha.
  assert (He : forall s, In s (specialtySkills d) -> s <> []).
  { intros s Hs ->. exact (Hne Hs). }
  split.
  - intros i Hi. unfold formSchema in Hi.
    rewrite (proj2 (union_of_literals_nil_iff _ _) Ha), app_nil_r in Hi.
    unfold array_min in Hi.
    rewrite (proj2 (array_elements_nil_iff _ _ _) He), app_nil_r in Hi.
    repeat (apply in_app_or in Hi as [Hi|Hi]).
    + unfold string_min in Hi. destruct (_ <? _); [|destruct Hi].
      destruct Hi as [<-|[]]. left. reflexivity.
    + unfold string_min in Hi. destruct (_ <? _); [|destruct Hi].
      destruct Hi as [<-|[]]. right. left. reflexivity.
    + unfold string_min in Hi. destruct (_ <? _); [|destruct Hi].
      destruct Hi as [<-|[]]. do 2 right. left. reflexivity.
    + destruct (_ <? _); [|destruct Hi].
      destruct Hi as [<-|[]]. do 3 right. left. reflexivity.
  - split.
    + intros H. apply schema_accepts_cond in H.
      destruct H as (Ht & Hro & Hl & Hs & _). repeat split; assumption.
    + intros (Ht & Hro & Hl & Hs). apply schema_accepts_of_cond.
      repeat split; assumption.
Qed.

Lemma reachable_issues_witness :
  formSchema [] (form_values filled_in) = [].
Proof.
  apply (proj2 (reachable_issues filled_in filled_in_reachable)).
  repeat split; vm_compute; discriminate.
Defined.

(** X15. After a successful submission the form is empty again, so
    submitting once more without editing sends nothing: the second
    submission is blocked with the three required-field errors and the
    minimum-count error, whoever the user and whatever the network. *)
Theorem resubmit_after_success_is_blocked
        (user user' : option User) (net net' : Network) (w : World)
        (r : Response) :
  let d := form_values w in
  let request := generate_request user d in
  formSchema [] d = [] ->
  net request = Resolves r ->
  ok r = true ->
  submit user' net' (snd (submit user net w))
  = (Returned tt,
     {| form_values := defaultValues;
        form_errors := [type_required; role_required; level_required;
                        skills_minimum];
        skillInput := skillInput w;
        trace := trace w ++ [CallFetch request; CallRouter refresh] |}).
Proof.
  intros d request Hvalid Hnet Hok.
  rewrite (submit_valid user net w Hvalid).
  unfold after_submit. cbn zeta. fold d. fold request.
  rewrite Hnet, Hok. cbn [snd].
  rewrite submit_invalid by (cbn; discriminate). reflexivity.
Qed.

Lemma resubmit_after_success_is_blocked_witness :
  trace (snd (submit None always_500
                (snd (submit scenario_A_user always_200 scenario_A_world))))
  = [CallFetch (generate_request scenario_A_user scenario_A_draft);
     CallRouter refresh].
Proof.
  rewrite (resubmit_after_success_is_blocked scenario_A_user None always_200
             always_500 scenario_A_world (mkResponse 200)
             eq_refl eq_refl eq_refl).
  reflexivity.
Defined.

(** X16. After a failed submission the draft is kept, so submitting again
    for the same user sends the same request once more, body included,
    whatever the network answers this time. *)
Theorem resubmit_after_failure_repeats_request
        (user : option User) (net net' : Network) (w : World) :
  let d := form_values w in
  let request := generate_request user d in
  formSchema [] d = [] ->
  unsuccessful (net request) ->
  exists rest,
    trace (snd (submit user net' (snd (submit user net w))))
    = trace w
      ++ [CallFetch request; CallConsoleError (caught_error (net request))]
      ++ CallFetch request :: rest.
Proof.
  intros d request Hvalid Hfail.
  set (w1 := {| form_values := d; form_errors := [];
                skillInput := skillInput w;
                trace := trace w
                         ++ [CallFetch request;
                             CallConsoleError (caught_error (net request))] |}).
  assert (E1 : submit user net w = (Returned tt, w1)).
  { rewrite (submit_valid user net w Hvalid).
    unfold after_submit. cbn zeta. fold d. fold request.
    destruct (net request) as [resp|e]; cbn in Hfail |- *.
    - rewrite Hfail. reflexivity.
    - reflexivity. }
  rewrite E1. cbn [snd].
  rewrite (submit_valid user net' w1 Hvalid).
  unfold after_submit. cbn zeta. cbn [snd form_values w1 trace].
  fold request.
  destruct (net' request) as [resp|e]; [destruct (ok resp)|];
    cbn [trace]; rewrite <- app_assoc; eexists; reflexivity.
Qed.

Lemma resubmit_after_failure_repeats_request_witness :
  exists rest,
    trace (snd (submit scenario_A_user always_200
                  (snd (submit scenario_A_user always_500 scenario_A_world))))
    = [CallFetch (generate_request scenario_A_user scenario_A_draft);
       CallConsoleError (new_Error (js "Submission failed"))]
      ++ CallFetch (generate_request scenario_A_user scenario_A_draft) :: rest.
Proof.
  exact (resubmit_after_failure_repeats_request scenario_A_user always_500
           always_200 scenario_A_world eq_refl eq_refl).
Defined.

(* ------------------------------------------------------------------------- *)
(** ** The amount select and the joined skills                                *)
(* ------------------------------------------------------------------------- *)

Section DecimalDigits.

Lemma of_uint_no_white (d : Decimal.uint) :
  forallb (fun c => negb (JsString.is_white_space c)) (JsString.of_uint d)
  = true.
Proof. induction d; cbn [JsString.of_uint forallb]; try rewrite IHd; reflexivity. Qed.

Lemma no_white_clean (s : jsstring) :
  forallb (fun c => negb (JsString.is_white_space c)) s = true ->
  starts_clean s = true /\ starts_clean (rev s) = true.
Proof.
  intros H. split.
  - destruct s as [|c r]; [reflexivity|].
    cbn [forallb] in H. apply andb_true_iff in H as [H _]. exact H.
  - destruct (rev s) as [|c r] eqn:E; [reflexivity|].
    cbn [starts_clean].
    apply (proj1 (forallb_forall _ s) H c).
    apply in_rev. rewrite E. left. reflexivity.
Qed.

Lemma digits_value_acc (d : Decimal.uint) (acc : positive) :
  JsString.digits_value (Zpos acc) (JsString.of_uint d)
  = Some (Zpos (Pos.of_uint_acc d acc)).
Proof.
  revert acc. induction d; intros acc;
    cbn [JsString.of_uint Pos.of_uint_acc]; [reflexivity | ..];
    cbn [JsString.digits_value];
    match goal with
    | |- (if ?b then _ else _) = _ => change b with true; cbv iota
    end;
    rewrite <- IHd; f_equal; lia.
Qed.

Lemma digits_value_zero (d : Decimal.uint) :
  JsString.digits_value 0 (JsString.of_uint d)
  = Some (Z.of_N (Pos.of_uint d)).
Proof.
  induction d; cbn [JsString.of_uint Pos.of_uint]; [reflexivity | ..];
    cbn [JsString.digits_value];
    match goal with
    | |- (if ?b then _ else _) = _ => change b with true; cbv iota
    end;
    [exact IHd | ..];
    cbn [Z.of_N]; apply digits_value_acc.
Qed.

Lemma Number_String_roundtrip (n : Z) :
  0 <= n ->
  JsString.Number_of_string (JsString.String_of_number n) = Some n.
Proof.
  intros Hn. destruct n as [|p|p]; [reflexivity | | lia].
  unfold JsString.Number_of_string, JsString.String_of_number.
  destruct (no_white_clean _ (of_uint_no_white (Pos.to_uint p))) as [Hs He].
  rewrite (trim_of_clean _ Hs He), digits_value_zero.
  rewrite DecimalPos.Unsigned.of_to. reflexivity.
Qed.

End DecimalDigits.

(** X17. The amount select round-trips: for every integer [n] from 0 to
    2^53 - 1 (the integers a number holds exactly, all written by [String]
    in plain decimal digits), choosing the item whose value is [String(n)]
    stores the number [n] as the amount, leaves the other values of the
    draft and the trace as they were, and the select then shows that
    item. *)
Theorem amount_select_roundtrip (w : World) (n : Z) :
  0 <= n <= 9007199254740991 ->
  let w' := snd (amount_onValueChange (JsString.String_of_number n) w) in
  form_values w'
  = {| type := type (form_values w); role := role (form_values w);
       level := level (form_values w);
       specialtySkills := specialtySkills (form_values w);
       amount := n |}
  /\ trace w' = trace w
  /\ amount_select_value w' = JsString.String_of_number n.
Proof.
  intros [Hn _] w'. subst w'. unfold amount_onValueChange.
  rewrite (Number_String_roundtrip n Hn). repeat split.
Qed.

Lemma amount_select_roundtrip_witness :
  amount (form_values
            (snd (amount_onValueChange (JsString.String_of_number 120)
                    initial_world)))
  = 120.
Proof.
  rewrite (proj1 (amount_select_roundtrip initial_world 120 ltac:(lia))).
  reflexivity.
Defined.

Section Join.

Lemma split_at_first_comma (x y a b : jsstring) :
  ~ In comma x -> ~ In comma y ->
  x ++ comma :: a = y ++ comma :: b -> x = y /\ a = b.
Proof.
  revert y. induction x as [|c x IH]; intros [|c' y] Hx Hy E; cbn [app] in E.
  - injection E as ->. split; reflexivity.
  - injection E as <- _. exfalso. apply Hy. left. reflexivity.
  - injection E as -> _. exfalso. apply Hx. left. reflexivity.
  - injection E as <- E.
    destruct (IH y) as [-> ->]; [| |exact E|split; reflexivity].
    + intros H. apply Hx. right. exact H.
    + intros H. apply Hy. right. exact H.
Qed.

Lemma join_cons_cons (x z : jsstring) (r : list jsstring) :
  JsString.join (js ", ") (x :: z :: r)
  = x ++ comma :: 32%N :: JsString.join (js ", ") (z :: r).
Proof. reflexivity. Qed.

Lemma join_nonempty (x : jsstring) (r : list jsstring) :
  x <> [] -> JsString.join (js ", ") (x :: r) <> [].
Proof.
  intros Hx. destruct r as [|z r]; [exact Hx|].
  rewrite join_cons_cons. destruct x; [congruence | discriminate].
Qed.

End Join.

(** X18. Joining loses nothing when no skill is empty or contains a comma:
    two such skill lists with the same joined string are the same list, so
    the [specialtySkills] string of the body determines the committed
    skills. *)
Theorem join_skills_injective (l1 l2 : list jsstring) :
  (forall s, In s l1 -> s <> [] /\ ~ In comma s) ->
  (forall s, In s l2 -> s <> [] /\ ~ In comma s) ->
  JsString.join (js ", ") l1 = JsString.join (js ", ") l2 ->
  l1 = l2.
Proof.
  revert l2. induction l1 as [|x l1 IH]; intros [|y l2] H1 H2 E.
  - reflexivity.
  - exfalso. symmetry in E. revert E. apply join_nonempty.
    apply H2. left. reflexivity.
  - exfalso. revert E. apply join_nonempty. apply H1. left. reflexivity.
  - destruct (H1 x (or_introl eq_refl)) as [_ Hx].
    destruct (H2 y (or_introl eq_refl)) as [_ Hy].
    destruct l1 as [|z1 l1]; destruct l2 as [|z2 l2].
    + cbn in E. congruence.
    + exfalso. rewrite join_cons_cons in E. cbn [JsString.join] in E.
      apply Hx. rewrite E. apply in_or_app. right. left. reflexivity.
    + exfalso. rewrite join_cons_cons in E. cbn [JsString.join] in E.
      apply Hy. rewrite <- E. apply in_or_app. right. left. reflexivity.
    + rewrite !join_cons_cons in E.
      apply split_at_first_comma in E as [-> E]; [|exact Hx|exact Hy].
      injection E as E. f_equal. apply IH.
      * intros s Hs. apply H1. right. exact Hs.
      * intros s Hs. apply H2. right. exact Hs.
      * exact E.
Qed.

Lemma join_skills_injective_witness :
  [js "React"; js "CSS"] = [js "React"; js "CSS"].
Proof.
  apply (join_skills_injective [js "React"; js "CSS"] [js "React"; js "CSS"]).
  - intros s [<-|[<-|[]]]; (split; [discriminate|]); vm_compute; intros H;
      repeat (destruct H as [H|H]; [discriminate H|]); exact H.
  - intros s [<-|[<-|[]]]; (split; [discriminate|]); vm_compute; intros H;
      repeat (destruct H as [H|H]; [discriminate H|]); exact H.
  - reflexivity.
Defined.

(** A skill that contains a comma and a space is not told apart from two
    skills once joined. *)
Example join_skills_collision :
  JsString.join (js ", ") [js "C, C++"]
  = JsString.join (js ", ") [js "C"; js "C++"].
Proof. reflexivity. Qed.
